(** * Flowr Timer: session state machine, auto-stop policy, history store

    A shallow embedding of the decision logic of the Flowr timer:
    - [src/app.js]: the browser timer (start / stop / reset, voice auto-stop,
      the recognition restart loop, the scheduled-finish evaluator and the
      bounded session history kept in localStorage);
    - [src/discord-bot.js]: the bot actor and its timer-state file.

    Conventions of the embedding.
    - JavaScript numbers that hold instants or durations are integers of
      milliseconds, modelled in [Z]; [null]/[undefined] is [None].
    - Strings are sequences of 8-bit characters; case folding and white space
      are the ASCII ones, where the functions below agree with
      [String.prototype.toLowerCase] and [String.prototype.trim].
    - Reads of the environment (the clock, the random identifier, whether a
      call on the recognizer or on the storage raises) are inputs of the
      handlers, gathered in a record [Env].
    - Text written to the DOM, ARIA announcements and the animation frame
      loop carry no decision and are left out; the flags that [updateControls]
      assigns and the formatting helpers are modelled as functions. *)

From Stdlib Require Import ZArith List String Ascii Bool Lia DecimalString.
From ExtLib Require Import Structures.Monad Structures.MonadExc Data.Monads.EitherMonad.
Import ListNotations.
Import MonadNotation.

Set Warnings "-register-all".

Local Open Scope string_scope.
Local Open Scope list_scope.
Local Open Scope monad_scope.

(** ** Shared enumerations *)

(** [Status] of the mockup, a superset of [FlowrStatus] of [src/app.js]. *)
Inductive Status : Type := idle | running | stopped | finished.

(** [StopReason] of [src/app.js]. *)
Inductive StopReason : Type := manual | voice_any | voice_keyword | error.

(** The value of [getVoiceMode()]. *)
Inductive VoiceMode : Type := any | keyword.

(** ** JavaScript string primitives used by the policy *)

Module Js.

(** White space removed by [trim] (tab, line feed, vertical tab, form feed,
    carriage return, space). *)
Definition isWhiteSpace (c : ascii) : bool :=
  let n := nat_of_ascii c in
  (Nat.leb 9 n && Nat.leb n 13) || Nat.eqb n 32.

Fixpoint trimStart (s : string) : string :=
  match s with
  | EmptyString => EmptyString
  | String c rest => if isWhiteSpace c then trimStart rest else s
  end.

Fixpoint trimEnd (s : string) : string :=
  match s with
  | EmptyString => EmptyString
  | String c rest =>
      match trimEnd rest with
      | EmptyString => if isWhiteSpace c then EmptyString else String c EmptyString
      | kept => String c kept
      end
  end.

(** [s.trim()] *)
Definition trim (s : string) : string := trimEnd (trimStart s).

Definition lowerChar (c : ascii) : ascii :=
  let n := nat_of_ascii c in
  if Nat.leb 65 n && Nat.leb n 90 then ascii_of_nat (n + 32) else c.

(** [s.toLowerCase()] *)
Fixpoint toLowerCase (s : string) : string :=
  match s with
  | EmptyString => EmptyString
  | String c rest => String (lowerChar c) (toLowerCase rest)
  end.

Fixpoint isPrefixOf (needle hay : string) : bool :=
  match needle, hay with
  | EmptyString, _ => true
  | String _ _, EmptyString => false
  | String a needle', String b hay' => Ascii.eqb a b && isPrefixOf needle' hay'
  end.

(** [hay.includes(needle)] *)
Fixpoint includes (hay needle : string) : bool :=
  isPrefixOf needle hay ||
  match hay with
  | EmptyString => false
  | String _ hay' => includes hay' needle
  end.

(** [!s] on a string: only the empty string is falsy. *)
Definition isEmpty (s : string) : bool :=
  match s with EmptyString => true | String _ _ => false end.

(** [a || b] on strings. *)
Definition orElse (a b : string) : string := if isEmpty a then b else a.

(** [Math.max(0, x)] *)
Definition clampNonNeg (x : Z) : Z := Z.max 0 x.

End Js.

(** ** The scheduled-finish evaluator ([finishIfDue], src/app.js 205-220) *)

Module Sched.

(** The record [finishIfDue] receives: [{ status, startTs, autoFinishTs, finishTs }]. *)
Record State : Type := mkState {
  status : Status;
  startTs : option Z;
  autoFinishTs : option Z;
  finishTs : option Z
}.

(** [{ ...state, finishTs: autoFinishTs }] followed by [finished.status = "finished"]. *)
Definition markFinished (state : State) (due : Z) : State :=
  {| status := finished;
     startTs := startTs state;
     autoFinishTs := autoFinishTs state;
     finishTs := Some due |}.

(** [finishIfDue(state, now)]; the argument [None] is a null state. The test
    [!autoFinishTs] rejects null, undefined and also the number 0. *)
Definition finishIfDue (state : option State) (now : Z) : option State :=
  match state with
  | None => state
  | Some st =>
      match status st with
      | running =>
          match autoFinishTs st with
          | None => state
          | Some due =>
              if (due =? 0)%Z then state
              else if (now <? due)%Z then state
              else Some (markFinished st due)
          end
      | _ => state
      end
  end.

(** The guard of [finishIfDue] in words: the session runs, a scheduled finish
    instant is set (truthy, as the code tests it) and [now] has reached it. *)
Definition Due (st : State) (now : Z) (due : Z) : Prop :=
  status st = running /\ autoFinishTs st = Some due /\ due <> 0%Z /\ (due <= now)%Z.

(** The dev regression input of [__flowr_run_dev_tests__]. *)
Definition devTestState : State :=
  {| status := running; startTs := Some 1000%Z; autoFinishTs := Some 2000%Z; finishTs := None |}.

End Sched.

(** ** The bounded session history in localStorage (src/app.js 150-170, 242-247) *)

Module History.

(** Values that [JSON.parse] can produce. [JIso ms] stands for the string
    [new Date(ms).toISOString()], which determines [ms]. *)
Inductive Json : Type :=
| JNull
| JBool (b : bool)
| JNum (n : Z)
| JStr (s : string)
| JIso (ms : Z)
| JArr (items : list Json)
| JObj (fields : list (string * Json)).

(** [Array.isArray(v)] *)
Definition isArray (v : Json) : bool :=
  match v with JArr _ => true | _ => false end.

(** [obj[key]] on a parsed object. *)
Fixpoint lookup (key : string) (fields : list (string * Json)) : option Json :=
  match fields with
  | [] => None
  | (k, v) :: rest => if String.eqb k key then Some v else lookup key rest
  end.

Definition field (key : string) (v : Json) : option Json :=
  match v with JObj fields => lookup key fields | _ => None end.

Definition HISTORY_LIMIT : nat := 10.

(** The text held under [HISTORY_KEY], by what [JSON.parse] makes of it: the
    empty string, text that is not JSON, or the serialization of a value. *)
Inductive Text : Type :=
| TextEmpty
| TextMalformed
| TextJson (v : Json).

(** The storage slot, and whether the browser refuses access to it. *)
Record LocalStorage : Type := mkStorage {
  getItemThrows : bool;
  setItemThrows : bool;
  item : option Text
}.

(** Computations that may raise; the payload names the exception. *)
Definition Exc : Type -> Type := sum string.

(** [try { body } catch { handler }] *)
Definition tryCatch {A : Type} (body : Exc A) (handler : string -> A) : A :=
  match body with
  | inr a => a
  | inl e => handler e
  end.

(** [localStorage.getItem(HISTORY_KEY)] *)
Definition getItem (ls : LocalStorage) : Exc (option Text) :=
  if getItemThrows ls then raise "SecurityError" else ret (item ls).

(** [JSON.parse(raw)] *)
Definition JSON_parse (raw : Text) : Exc Json :=
  match raw with
  | TextJson v => ret v
  | TextEmpty | TextMalformed => raise "SyntaxError"
  end.

(** [localStorage.setItem(HISTORY_KEY, JSON.stringify(v))] *)
Definition setItem (ls : LocalStorage) (v : Json) : Exc LocalStorage :=
  if setItemThrows ls then raise "QuotaExceededError"
  else ret {| getItemThrows := getItemThrows ls;
              setItemThrows := setItemThrows ls;
              item := Some (TextJson v) |}.

(** The [try] block of [loadHistory]. *)
Definition loadHistoryTry (ls : LocalStorage) : Exc (list Json) :=
  raw <- getItem ls ;;
  match raw with
  | None => ret []
  | Some TextEmpty => ret []
  | Some text =>
      parsed <- JSON_parse text ;;
      match parsed with
      | JArr items => ret items
      | _ => ret []
      end
  end.

(** [loadHistory()] *)
Definition loadHistory (ls : LocalStorage) : list Json :=
  tryCatch (loadHistoryTry ls) (fun _ => []).

(** [saveHistory(sessions)] *)
Definition saveHistory (sessions : list Json) (ls : LocalStorage) : LocalStorage :=
  tryCatch (setItem ls (JArr (firstn HISTORY_LIMIT sessions))) (fun _ => ls).

(** [pushSessionToHistory(session)] *)
Definition pushSessionToHistory (session : Json) (ls : LocalStorage) : LocalStorage :=
  let existing := loadHistory ls in
  let next := firstn HISTORY_LIMIT (session :: existing) in
  saveHistory next ls.

(** Appending a sequence of sessions, oldest first. *)
Definition pushAll (sessions : list Json) (ls : LocalStorage) : LocalStorage :=
  fold_left (fun acc session => pushSessionToHistory session acc) sessions ls.

(** A storage that accepts reads and writes. *)
Definition usable (ls : LocalStorage) : Prop :=
  getItemThrows ls = false /\ setItemThrows ls = false.

Definition emptyStorage : LocalStorage :=
  {| getItemThrows := false; setItemThrows := false; item := None |}.

(** The slot contents that hold no history. *)
Definition unusableSlot (ls : LocalStorage) : Prop :=
  getItemThrows ls = true \/
  item ls = None \/
  item ls = Some TextEmpty \/
  item ls = Some TextMalformed \/
  (exists v, item ls = Some (TextJson v) /\ isArray v = false).

End History.

(** ** The browser timer (src/app.js) *)

Module App.

Import History.

(** What a handler reads from its environment while it runs. *)
Record Env : Type := mkEnv {
  now : Z;               (* nowMs() *)
  uuid : string;         (* safeUUID() *)
  startThrows : bool;    (* recognition.start() raises *)
  stopThrows : bool;     (* recognition.stop() raises *)
  stopFiresEnd : bool    (* stop() delivers the end event before it returns *)
}.

(** Calls made on the recognizer, oldest first. *)
Inductive RecCall : Type := CallStart | CallStop.

(** The [SpeechRecognition] object: [onendSet] tells whether [r.onend] holds
    the restart handler ([true]) or [null] ([false]). *)
Record Recognizer : Type := mkRecognizer { onendSet : bool }.

(** The module-level variables of [src/app.js], the form controls they read,
    the storage slot and the trace of recognizer calls. *)
Record World : Type := mkWorld {
  status : Status;
  startedAtMs : option Z;
  endedAtMs : option Z;
  stopReason : option StopReason;
  speechSupported : bool;
  recognition : option Recognizer;
  recognitionStarting : bool;
  lastTranscript : string;
  voiceEnabled : bool;               (* els.voiceEnabled.checked *)
  voiceModeChecked : option string;  (* value of the checked voiceMode radio *)
  keywordInput : string;             (* els.keywordInput.value *)
  storage : LocalStorage;
  recCalls : list RecCall
}.

Definition setStatus (next : Status) (w : World) : World :=
  mkWorld next (startedAtMs w) (endedAtMs w) (stopReason w) (speechSupported w)
    (recognition w) (recognitionStarting w) (lastTranscript w) (voiceEnabled w)
    (voiceModeChecked w) (keywordInput w) (storage w) (recCalls w).

Definition set_startedAtMs (v : option Z) (w : World) : World :=
  mkWorld (status w) v (endedAtMs w) (stopReason w) (speechSupported w)
    (recognition w) (recognitionStarting w) (lastTranscript w) (voiceEnabled w)
    (voiceModeChecked w) (keywordInput w) (storage w) (recCalls w).

Definition set_endedAtMs (v : option Z) (w : World) : World :=
  mkWorld (status w) (startedAtMs w) v (stopReason w) (speechSupported w)
    (recognition w) (recognitionStarting w) (lastTranscript w) (voiceEnabled w)
    (voiceModeChecked w) (keywordInput w) (storage w) (recCalls w).

Definition set_stopReason (v : option StopReason) (w : World) : World :=
  mkWorld (status w) (startedAtMs w) (endedAtMs w) v (speechSupported w)
    (recognition w) (recognitionStarting w) (lastTranscript w) (voiceEnabled w)
    (voiceModeChecked w) (keywordInput w) (storage w) (recCalls w).

Definition set_recognition (v : option Recognizer) (w : World) : World :=
  mkWorld (status w) (startedAtMs w) (endedAtMs w) (stopReason w) (speechSupported w)
    v (recognitionStarting w) (lastTranscript w) (voiceEnabled w)
    (voiceModeChecked w) (keywordInput w) (storage w) (recCalls w).

Definition set_recognitionStarting (v : bool) (w : World) : World :=
  mkWorld (status w) (startedAtMs w) (endedAtMs w) (stopReason w) (speechSupported w)
    (recognition w) v (lastTranscript w) (voiceEnabled w)
    (voiceModeChecked w) (keywordInput w) (storage w) (recCalls w).

Definition set_lastTranscript (v : string) (w : World) : World :=
  mkWorld (status w) (startedAtMs w) (endedAtMs w) (stopReason w) (speechSupported w)
    (recognition w) (recognitionStarting w) v (voiceEnabled w)
    (voiceModeChecked w) (keywordInput w) (storage w) (recCalls w).

Definition set_voiceEnabled (v : bool) (w : World) : World :=
  mkWorld (status w) (startedAtMs w) (endedAtMs w) (stopReason w) (speechSupported w)
    (recognition w) (recognitionStarting w) (lastTranscript w) v
    (voiceModeChecked w) (keywordInput w) (storage w) (recCalls w).

Definition set_voiceModeChecked (v : option string) (w : World) : World :=
  mkWorld (status w) (startedAtMs w) (endedAtMs w) (stopReason w) (speechSupported w)
    (recognition w) (recognitionStarting w) (lastTranscript w) (voiceEnabled w)
    v (keywordInput w) (storage w) (recCalls w).

Definition set_keywordInput (v : string) (w : World) : World :=
  mkWorld (status w) (startedAtMs w) (endedAtMs w) (stopReason w) (speechSupported w)
    (recognition w) (recognitionStarting w) (lastTranscript w) (voiceEnabled w)
    (voiceModeChecked w) v (storage w) (recCalls w).

Definition set_storage (v : LocalStorage) (w : World) : World :=
  mkWorld (status w) (startedAtMs w) (endedAtMs w) (stopReason w) (speechSupported w)
    (recognition w) (recognitionStarting w) (lastTranscript w) (voiceEnabled w)
    (voiceModeChecked w) (keywordInput w) v (recCalls w).

Definition set_recCalls (v : list RecCall) (w : World) : World :=
  mkWorld (status w) (startedAtMs w) (endedAtMs w) (stopReason w) (speechSupported w)
    (recognition w) (recognitionStarting w) (lastTranscript w) (voiceEnabled w)
    (voiceModeChecked w) (keywordInput w) (storage w) v.

(** [getVoiceMode()] *)
Definition getVoiceMode (w : World) : VoiceMode :=
  match voiceModeChecked w with
  | Some value => if String.eqb value "keyword" then keyword else any
  | None => any
  end.

(** [getKeyword()] *)
Definition getKeyword (w : World) : string := Js.trim (keywordInput w).

(** [ensureRecognition()]: the recognizer, created with its handlers on first use. *)
Definition ensureRecognition (w : World) : option Recognizer * World :=
  if negb (speechSupported w) then (None, w)
  else match recognition w with
       | Some r => (Some r, w)
       | None =>
           let r := {| onendSet := true |} in
           (Some r, set_recognition (Some r) w)
       end.

(** [startRecognition()] *)
Definition startRecognition (env : Env) (w : World) : World :=
  if negb (speechSupported w) || negb (voiceEnabled w) then w
  else match status w with
       | running =>
           if recognitionStarting w then w
           else match ensureRecognition w with
                | (None, w1) => w1
                | (Some _, w1) =>
                    let w2 := set_recognitionStarting true w1 in
                    let w3 := set_recCalls (recCalls w2 ++ [CallStart]) w2 in
                    if startThrows env then set_recognitionStarting false w3 else w3
                end
       | _ => w
       end.

(** The [onend] handler installed by [ensureRecognition] and restored by
    [stopRecognition]. *)
Definition onend (env : Env) (w : World) : World :=
  match status w with
  | running =>
      if voiceEnabled w && speechSupported w then startRecognition env w else w
  | _ => w
  end.

(** Delivery of the recognizer's end event: runs [r.onend] unless it is null. *)
Definition fireEnd (env : Env) (w : World) : World :=
  match recognition w with
  | Some r => if onendSet r then onend env w else w
  | None => w
  end.

(** [stopRecognition()] *)
Definition stopRecognition (env : Env) (w : World) : World :=
  let w1 := set_recognitionStarting false w in
  match recognition w1 with
  | None => w1
  | Some _ =>
      let w2 := set_recognition (Some {| onendSet := false |}) w1 in
      let w3 := set_recCalls (recCalls w2 ++ [CallStop]) w2 in
      let w4 := if stopThrows env then w3
                else if stopFiresEnd env then fireEnd env w3 else w3 in
      set_recognition (Some {| onendSet := true |}) w4
  end.

Definition reasonText (r : StopReason) : string :=
  match r with
  | manual => "manual"
  | voice_any => "voice_any"
  | voice_keyword => "voice_keyword"
  | error => "error"
  end.

Definition modeText (m : VoiceMode) : string :=
  match m with any => "any" | keyword => "keyword" end.

(** The [FlowrSession] object literal built by [handleStop]. *)
Definition buildSession (env : Env) (reason : StopReason) (started ended durationMs : Z)
    (w : World) : Json :=
  JObj
    [ ("id", JStr (uuid env));
      ("startedAt", JIso started);
      ("endedAt", JIso ended);
      ("durationMs", JNum durationMs);
      ("stopReason", JStr (reasonText reason));
      ("voiceEnabled", JBool (voiceEnabled w));
      ("voiceMode", if voiceEnabled w then JStr (modeText (getVoiceMode w)) else JNull);
      ("keyword",
        if voiceEnabled w
        then match getVoiceMode w with
             | keyword => JStr (getKeyword w)
             | any => JNull
             end
        else JNull);
      ("transcriptSnippet", JNull) ].

(** [handleStop(reason, transcriptForStop)] *)
Definition handleStop (env : Env) (reason : StopReason) (transcriptForStop : string)
    (w : World) : World :=
  match status w, startedAtMs w with
  | running, Some started =>
      let ended := now env in
      let w1 := set_stopReason (Some reason) (set_endedAtMs (Some ended) w) in
      let w2 := stopRecognition env w1 in
      let durationMs := Js.clampNonNeg (ended - started) in
      let w3 := setStatus stopped w2 in
      let session := buildSession env reason started ended durationMs w3 in
      set_storage (pushSessionToHistory session (storage w3)) w3
  | _, _ => w
  end.

(** [handleStart()] *)
Definition handleStart (env : Env) (w : World) : World :=
  match status w with
  | running => w
  | _ =>
      let w1 := stopRecognition env w in
      let w2 := set_startedAtMs (Some (now env)) w1 in
      let w3 := set_lastTranscript "" (set_stopReason None (set_endedAtMs None w2)) in
      let w4 := setStatus running w3 in
      startRecognition env w4
  end.

(** [handleReset()] *)
Definition handleReset (env : Env) (w : World) : World :=
  let w1 := stopRecognition env w in
  let w2 := set_startedAtMs None (setStatus idle w1) in
  set_lastTranscript "" (set_stopReason None (set_endedAtMs None w2)).

(** [maybeVoiceStop(transcript)]: the live auto-stop policy. *)
Definition maybeVoiceStop (env : Env) (transcript : string) (w : World) : World :=
  match status w with
  | running =>
      if negb (voiceEnabled w) then w
      else match getVoiceMode w with
           | any => handleStop env voice_any transcript w
           | keyword =>
               let kw := getKeyword w in
               if Js.isEmpty kw then w
               else
                 let hay := Js.toLowerCase transcript in
                 let needle := Js.toLowerCase kw in
                 if Js.includes hay needle
                 then handleStop env voice_keyword transcript w
                 else w
           end
  | _ => w
  end.

(** The transcript made up by the simulate button. *)
Definition simulatedTranscript (w : World) : string :=
  match getVoiceMode w with
  | keyword => Js.orElse (getKeyword w) "stop"
  | any => "hello"
  end.

(** The click handler of [els.simulateBtn]. *)
Definition simulateClick (env : Env) (w : World) : World :=
  let simulated := simulatedTranscript w in
  match status w with
  | running =>
      match getVoiceMode w with
      | any => handleStop env voice_any simulated w
      | keyword =>
          let kw := Js.orElse (getKeyword w) "stop" in
          let hay := Js.toLowerCase simulated in
          let needle := Js.toLowerCase kw in
          if Js.includes hay needle
          then handleStop env voice_keyword simulated w
          else w
      end
  | _ => w
  end.

(** [r.onstart] *)
Definition onstart (w : World) : World := set_recognitionStarting false w.

(** [r.onresult]: [parts] are the transcripts of the results from
    [event.resultIndex] on. *)
Definition onresult (env : Env) (parts : list string) (w : World) : World :=
  let transcript := Js.trim (String.concat "" parts) in
  if Js.isEmpty transcript then w
  else maybeVoiceStop env transcript (set_lastTranscript transcript w).

(** The change handler of [els.voiceEnabled], after the box took the value [checked]. *)
Definition voiceEnabledChange (env : Env) (checked : bool) (w : World) : World :=
  let w0 := set_voiceEnabled checked w in
  let w1 := match status w0 with
            | running => if voiceEnabled w0 then startRecognition env w0 else w0
            | _ => w0
            end in
  if negb (voiceEnabled w1) then stopRecognition env w1 else w1.

(** Everything that can happen to the page. Recognizer events reach a handler
    only once the recognizer exists. *)
Inductive Event : Type :=
| ClickStart
| ClickStop
| ClickReset
| ClickSimulate
| VoiceEnabledChange (checked : bool)
| VoiceModeChange (value : option string)
| KeywordInput (value : string)
| RecStart
| RecEnd
| RecError
| RecResult (parts : list string)
| BeforeUnload.

Definition step (env : Env) (ev : Event) (w : World) : World :=
  match ev with
  | ClickStart => handleStart env w
  | ClickStop => handleStop env manual "" w
  | ClickReset => handleReset env w
  | ClickSimulate => simulateClick env w
  | VoiceEnabledChange checked => voiceEnabledChange env checked w
  | VoiceModeChange value => set_voiceModeChecked value w
  | KeywordInput value => set_keywordInput value w
  | RecStart => match recognition w with Some _ => onstart w | None => w end
  | RecEnd => fireEnd env w
  | RecError => w
  | RecResult parts => match recognition w with Some _ => onresult env parts w | None => w end
  | BeforeUnload => stopRecognition env w
  end.

Fixpoint run (trace : list (Env * Event)) (w : World) : World :=
  match trace with
  | [] => w
  | (env, ev) :: rest => run rest (step env ev w)
  end.

(** The page after [init()]: idle, no recognizer yet; [updateVoiceSupportUI]
    unchecks the voice box where recognition is unsupported. *)
Definition init (supported checked : bool) (mode : option string) (kw : string)
    (ls : LocalStorage) : World :=
  {| status := idle;
     startedAtMs := None;
     endedAtMs := None;
     stopReason := None;
     speechSupported := supported;
     recognition := None;
     recognitionStarting := false;
     lastTranscript := "";
     voiceEnabled := if supported then checked else false;
     voiceModeChecked := mode;
     keywordInput := kw;
     storage := ls;
     recCalls := [] |}.

(** Worlds the page can be in. *)
Inductive Reachable : World -> Prop :=
| reach_init supported checked mode kw ls :
    Reachable (init supported checked mode kw ls)
| reach_step env ev w :
    Reachable w -> Reachable (step env ev w).

(** [needle] occurs in [hay] as a contiguous substring. *)
Definition Substring (needle hay : string) : Prop :=
  exists before after : string, hay = String.append before (String.append needle after).

(** Number of [start()] calls made on the recognizer so far. *)
Definition startCalls (w : World) : nat :=
  List.length (List.filter (fun c => match c with CallStart => true | CallStop => false end) (recCalls w)).

(** The shape of the timer variables in each status: idle with nothing
    recorded, running with a start instant only, stopped with start, end and
    reason. *)
Definition Coherent (w : World) : Prop :=
  match status w with
  | idle => startedAtMs w = None /\ endedAtMs w = None /\ stopReason w = None
  | running => startedAtMs w <> None /\ endedAtMs w = None /\ stopReason w = None
  | stopped => startedAtMs w <> None /\ endedAtMs w <> None /\ stopReason w <> None
  | finished => False
  end.

(** [durationMs] of a stored session, when it is a number. *)
Definition durationOf (session : Json) : option Z :=
  match field "durationMs" session with
  | Some (JNum d) => Some d
  | _ => None
  end.

(** A stored session whose [durationMs] is a number at or above zero. *)
Definition NonNegDuration (session : Json) : Prop :=
  exists d, durationOf session = Some d /\ (0 <= d)%Z.

(** A world that is running with voice auto-stop enabled in keyword mode. *)
Definition KeywordArmed (w : World) : Prop :=
  status w = running /\ voiceEnabled w = true /\ getVoiceMode w = keyword.

(** The configurations on which the simulate button follows the live policy:
    voice is enabled and, in keyword mode, a keyword is configured. *)
Definition SimulateFollowsPolicy (w : World) : Prop :=
  voiceEnabled w = true /\ (getVoiceMode w = any \/ getKeyword w <> "").

(** The recognizer exists with its restart handler in place, in a running
    session with voice enabled and recognition supported. *)
Definition LiveRun (w : World) : Prop :=
  status w = running /\ voiceEnabled w = true /\ speechSupported w = true /\
  recognition w = Some {| onendSet := true |}.


(** Two worlds that agree on the timer variables and on the stored history. *)
Definition sameTimer (a b : World) : Prop :=
  status a = status b /\ startedAtMs a = startedAtMs b /\
  endedAtMs a = endedAtMs b /\ stopReason a = stopReason b /\
  storage a = storage b.

End App.

(** ** The bot actor and its timer-state file (src/discord-bot.js 82-135, 312-393) *)

Module Bot.

(** The record kept in [timer-state.json]. Instants are the milliseconds that
    their ISO strings denote. *)
Record TimerState : Type := mkTimerState {
  status : Status;
  startedAt : option Z;
  endedAt : option Z;
  durationMs : option Z;
  stopReason : option StopReason;
  voiceEnabled : bool;
  voiceMode : option VoiceMode;
  keyword : option string
}.

(** The object literal passed to [updateTimerState]: the fields it names. *)
Record Updates : Type := mkUpdates {
  u_status : option Status;
  u_startedAt : option (option Z);
  u_endedAt : option (option Z);
  u_durationMs : option (option Z);
  u_stopReason : option (option StopReason)
}.

Definition override {A : Type} (current : A) (update : option A) : A :=
  match update with
  | Some v => v
  | None => current
  end.

(** [{ ...current, ...updates }] *)
Definition merge (current : TimerState) (updates : Updates) : TimerState :=
  {| status := override (status current) (u_status updates);
     startedAt := override (startedAt current) (u_startedAt updates);
     endedAt := override (endedAt current) (u_endedAt updates);
     durationMs := override (durationMs current) (u_durationMs updates);
     stopReason := override (stopReason current) (u_stopReason updates);
     voiceEnabled := voiceEnabled current;
     voiceMode := voiceMode current;
     keyword := keyword current |}.

(** The state file: missing, present but unreadable (the read or the parse
    raises), or holding a record. *)
Inductive File : Type :=
| FileAbsent
| FileUnreadable
| FileJson (state : TimerState).

Record Env : Type := mkEnv {
  now : Z;              (* new Date() *)
  writeThrows : bool    (* writeFileSync raises *)
}.

Definition defaultState : TimerState :=
  {| status := idle;
     startedAt := None;
     endedAt := None;
     durationMs := Some 0%Z;
     stopReason := None;
     voiceEnabled := false;
     voiceMode := None;
     keyword := None |}.

(** [loadTimerState()] *)
Definition loadTimerState (f : File) : TimerState :=
  match f with
  | FileJson state => state
  | FileAbsent | FileUnreadable => defaultState
  end.

(** [saveTimerState(state)] *)
Definition saveTimerState (env : Env) (state : TimerState) (f : File) : File :=
  if writeThrows env then f else FileJson state.

(** [getTimerState()] *)
Definition getTimerState (f : File) : TimerState := loadTimerState f.

(** [updateTimerState(updates)]: the file afterwards and the returned record. *)
Definition updateTimerState (env : Env) (updates : Updates) (f : File) : File * TimerState :=
  let current := loadTimerState f in
  let updated := merge current updates in
  (saveTimerState env updated f, updated).

(** [new Date(v).getTime()] for a stored instant; [new Date(null)] is the epoch. *)
Definition dateMs (v : option Z) : Z :=
  match v with
  | Some ms => ms
  | None => 0%Z
  end.

(** What the bot answers. *)
Inductive Reply : Type :=
| ReplyStarted (startedAt : Z)
| ReplyAlreadyRunning
| ReplyStopped (durationMs endedAt : Z)
| ReplyNotRunning
| ReplyReset
| ReplyStatus (state : TimerState).

(** [/timer-start] and the [timer_start] button *)
Definition timerStart (env : Env) (f : File) : File * Reply :=
  let state := getTimerState f in
  match status state with
  | running => (f, ReplyAlreadyRunning)
  | _ =>
      let startedAt := now env in
      let updates :=
        {| u_status := Some running;
           u_startedAt := Some (Some startedAt);
           u_endedAt := Some None;
           u_durationMs := Some (Some 0%Z);
           u_stopReason := Some None |} in
      (fst (updateTimerState env updates f), ReplyStarted startedAt)
  end.

(** [/timer-stop] and the [timer_stop] button *)
Definition timerStop (env : Env) (f : File) : File * Reply :=
  let state := getTimerState f in
  match status state with
  | running =>
      let endedAt := now env in
      let startedAt := dateMs (startedAt state) in
      let durationMs := Js.clampNonNeg (endedAt - startedAt) in
      let updates :=
        {| u_status := Some stopped;
           u_startedAt := None;
           u_endedAt := Some (Some endedAt);
           u_durationMs := Some (Some durationMs);
           u_stopReason := Some (Some manual) |} in
      (fst (updateTimerState env updates f), ReplyStopped durationMs endedAt)
  | _ => (f, ReplyNotRunning)
  end.

(** [/timer-reset] and the [timer_reset] button *)
Definition timerReset (env : Env) (f : File) : File * Reply :=
  let updates :=
    {| u_status := Some idle;
       u_startedAt := Some None;
       u_endedAt := Some None;
       u_durationMs := Some (Some 0%Z);
       u_stopReason := Some None |} in
  (fst (updateTimerState env updates f), ReplyReset).

(** [/timer-status] and the [timer_status] button *)
Definition timerStatus (f : File) : File * Reply :=
  (f, ReplyStatus (getTimerState f)).

Inductive Command : Type := TimerStart | TimerStop | TimerReset | TimerStatus.

Definition execute (env : Env) (cmd : Command) (f : File) : File * Reply :=
  match cmd with
  | TimerStart => timerStart env f
  | TimerStop => timerStop env f
  | TimerReset => timerReset env f
  | TimerStatus => timerStatus f
  end.

Fixpoint run (trace : list (Env * Command)) (f : File) : File :=
  match trace with
  | [] => f
  | (env, cmd) :: rest => run rest (fst (execute env cmd f))
  end.

(** The record an actor reads from the shared store. *)
Definition current (f : File) : TimerState := getTimerState f.

(** A store that holds no record yet. *)
Definition blank (f : File) : Prop := f = FileAbsent \/ f = FileUnreadable.

(** The shape of the record in each status, as the bot writes it. *)
Definition Coherent (st : TimerState) : Prop :=
  match status st with
  | idle =>
      startedAt st = None /\ endedAt st = None /\
      durationMs st = Some 0%Z /\ stopReason st = None
  | running =>
      startedAt st <> None /\ endedAt st = None /\
      durationMs st = Some 0%Z /\ stopReason st = None
  | stopped =>
      startedAt st <> None /\ endedAt st <> None /\
      (exists d, durationMs st = Some d /\ (0 <= d)%Z) /\ stopReason st = Some manual
  | finished => False
  end.

End Bot.

(** ** Formatting and controls of the page (src/app.js 83-92, 115-123, 196-203) *)

Module Render.

Import App.

(** [String(n)] for an integer. *)
Definition toStr (n : Z) : string := NilZero.string_of_int (Z.to_int n).

Fixpoint zeros (n : nat) : string :=
  match n with
  | O => EmptyString
  | S k => String "0" (zeros k)
  end.

(** [s.padStart(target, "0")] *)
Definition padStart (target : nat) (s : string) : string :=
  String.append (zeros (target - String.length s)) s.

(** The numbers [fmtDurationMs] prints: minutes, seconds, milliseconds. *)
Definition durationFields (ms : Z) : Z * Z * Z :=
  let clamped := Z.max 0 ms in
  let totalSeconds := (clamped / 1000)%Z in
  let minutes := (totalSeconds / 60)%Z in
  let seconds := Z.rem totalSeconds 60 in
  let millis := Z.rem clamped 1000 in
  (minutes, seconds, millis).

(** The template [`${mm}:${ss}.${mmm}`] shared by both duration formatters. *)
Definition renderFields (fields : Z * Z * Z) : string :=
  let '(minutes, seconds, millis) := fields in
  String.append (padStart 2 (toStr minutes))
    (String.append ":"
       (String.append (padStart 2 (toStr seconds))
          (String.append "." (padStart 3 (toStr millis))))).

(** [fmtDurationMs(ms)] *)
Definition fmtDurationMs (ms : Z) : string := renderFields (durationFields ms).

(** The three getters [fmtTimeHMS] reads from its [Date]. *)
Record ClockTime : Type := mkClockTime {
  getHours : Z;
  getMinutes : Z;
  getSeconds : Z
}.

(** [fmtTimeHMS(date)] *)
Definition fmtTimeHMS (date : ClockTime) : string :=
  String.append (padStart 2 (toStr (getHours date)))
    (String.append ":"
       (String.append (padStart 2 (toStr (getMinutes date)))
          (String.append ":" (padStart 2 (toStr (getSeconds date)))))).

(** [s.replaceAll(pattern, replacement)] for a one-character pattern and a
    replacement without [$]. *)
Fixpoint replaceAll (pattern : ascii) (replacement : string) (s : string) : string :=
  match s with
  | EmptyString => EmptyString
  | String c rest =>
      String.append (if Ascii.eqb c pattern then replacement else String c EmptyString)
        (replaceAll pattern replacement rest)
  end.

(** The double quote character. *)
Definition dquote : ascii := Eval cbv in ascii_of_nat 34.

(** [escapeHtml(s)] *)
Definition escapeHtml (s : string) : string :=
  replaceAll "'" "&#039;"
    (replaceAll dquote "&quot;"
       (replaceAll ">" "&gt;"
          (replaceAll "<" "&lt;"
             (replaceAll "&" "&amp;" s)))).

(** The characters [escapeHtml] rewrites. *)
Definition isHtmlSpecial (c : ascii) : bool :=
  Ascii.eqb c "&" || Ascii.eqb c "<" || Ascii.eqb c ">" ||
  Ascii.eqb c dquote || Ascii.eqb c "'".

(** What [escapeHtml] makes of one character. *)
Definition escapeChar (c : ascii) : string :=
  if Ascii.eqb c "&" then "&amp;"
  else if Ascii.eqb c "<" then "&lt;"
  else if Ascii.eqb c ">" then "&gt;"
  else if Ascii.eqb c dquote then "&quot;"
  else if Ascii.eqb c "'" then "&#039;"
  else String c EmptyString.

(** [c] occurs in [s]. *)
Fixpoint occurs (c : ascii) (s : string) : bool :=
  match s with
  | EmptyString => false
  | String a rest => Ascii.eqb a c || occurs c rest
  end.

(** Reading entities back: the inverse used to state that escaping loses
    nothing. *)
Fixpoint unescapeHtml (s : string) : string :=
  match s with
  | EmptyString => EmptyString
  | String "&" (String "a" (String "m" (String "p" (String ";" rest)))) =>
      String "&" (unescapeHtml rest)
  | String "&" (String "l" (String "t" (String ";" rest))) =>
      String "<" (unescapeHtml rest)
  | String "&" (String "g" (String "t" (String ";" rest))) =>
      String ">" (unescapeHtml rest)
  | String "&" (String "q" (String "u" (String "o" (String "t" (String ";" rest))))) =>
      String dquote (unescapeHtml rest)
  | String "&" (String "#" (String "0" (String "3" (String "9" (String ";" rest))))) =>
      String "'" (unescapeHtml rest)
  | String c rest => String c (unescapeHtml rest)
  end.

(** The [disabled] flags that [updateControls()] assigns. *)
Record Controls : Type := mkControls {
  startDisabled : bool;
  stopDisabled : bool;
  keywordDisabled : bool
}.

(** [updateControls()] *)
Definition updateControls (w : World) : Controls :=
  let isRunning := match status w with running => true | _ => false end in
  let keywordMode := match getVoiceMode w with keyword => true | any => false end in
  {| startDisabled := isRunning;
     stopDisabled := negb isRunning;
     keywordDisabled :=
       negb keywordMode || negb (voiceEnabled w) || negb (speechSupported w) |}.

(** Every character of [s] is white space. *)
Fixpoint allWhiteSpace (s : string) : bool :=
  match s with
  | EmptyString => true
  | String c rest => Js.isWhiteSpace c && allWhiteSpace rest
  end.

End Render.

(** ** Agents, replies and the control panel of the bot
       (src/discord-bot.js 152-200, 420-482, 487-556, 592-606, 701-730) *)

Module Agents.

(** [AgentInfo] *)
Record AgentInfo : Type := mkAgentInfo {
  userId : string;
  username : string;
  connectedAt : Z;
  agentStatus : string
}.

(** [connectedAgents]: a JavaScript [Map], kept in insertion order. *)
Definition AgentMap : Type := list (string * AgentInfo).

(** [map.get(key)] *)
Fixpoint mapGet (key : string) (m : AgentMap) : option AgentInfo :=
  match m with
  | [] => None
  | (k, v) :: rest => if String.eqb k key then Some v else mapGet key rest
  end.

(** [map.has(key)] *)
Definition mapHas (key : string) (m : AgentMap) : bool :=
  match mapGet key m with Some _ => true | None => false end.

(** [map.set(key, value)]: an existing key keeps its place. *)
Fixpoint mapSet (key : string) (value : AgentInfo) (m : AgentMap) : AgentMap :=
  match m with
  | [] => [(key, value)]
  | (k, v) :: rest =>
      if String.eqb k key then (k, value) :: rest
      else (k, v) :: mapSet key value rest
  end.

(** [map.delete(key)] *)
Fixpoint mapDelete (key : string) (m : AgentMap) : AgentMap :=
  match m with
  | [] => []
  | (k, v) :: rest =>
      if String.eqb k key then rest else (k, v) :: mapDelete key rest
  end.

(** [registerAgent(userId, username)] at the instant [now]. *)
Definition registerAgent (now : Z) (user name : string) (m : AgentMap)
    : AgentMap * AgentInfo :=
  let agentInfo :=
    {| userId := user; username := name; connectedAt := now; agentStatus := "active" |} in
  (mapSet user agentInfo m, agentInfo).

(** [unregisterAgent(userId)] *)
Definition unregisterAgent (user : string) (m : AgentMap) : AgentMap * option AgentInfo :=
  match mapGet user m with
  | Some agent => (mapDelete user m, Some agent)
  | None => (m, None)
  end.

(** [getConnectedAgents()] *)
Definition getConnectedAgents (m : AgentMap) : list AgentInfo := map snd m.

Inductive Reply : Type :=
| ReplyConnected (info : AgentInfo)
| ReplyAlreadyConnected
| ReplyDisconnected
| ReplyNotConnected.

(** [/agent-connect] *)
Definition agentConnect (now : Z) (user name : string) (m : AgentMap) : AgentMap * Reply :=
  if mapHas user m then (m, ReplyAlreadyConnected)
  else
    let '(m', agentInfo) := registerAgent now user name m in
    (m', ReplyConnected agentInfo).

(** [/agent-disconnect] *)
Definition agentDisconnect (user : string) (m : AgentMap) : AgentMap * Reply :=
  match unregisterAgent user m with
  | (m', Some _) => (m', ReplyDisconnected)
  | (m', None) => (m', ReplyNotConnected)
  end.

(** What reaches the registry: the two commands and [GuildMemberRemove]. *)
Inductive Interaction : Type :=
| AgentConnect (now : Z) (user name : string)
| AgentDisconnect (user : string)
| MemberRemove (user : string).

Definition handle (i : Interaction) (m : AgentMap) : AgentMap :=
  match i with
  | AgentConnect now user name => fst (agentConnect now user name m)
  | AgentDisconnect user => fst (agentDisconnect user m)
  | MemberRemove user => fst (unregisterAgent user m)
  end.

Definition run (trace : list Interaction) (m : AgentMap) : AgentMap :=
  fold_left (fun acc i => handle i acc) trace m.

(** One entry per user, each stored under its own [userId]. *)
Definition WellKeyed (m : AgentMap) : Prop :=
  NoDup (map fst m) /\ Forall (fun entry => userId (snd entry) = fst entry) m.

(** The numbers [formatUptime] prints, by branch. *)
Inductive Uptime : Type :=
| UpSeconds (s : Z)
| UpMinutes (m s : Z)
| UpHours (h m : Z).

Definition uptimeFields (seconds : Z) : Uptime :=
  if (seconds <? 60)%Z then UpSeconds seconds
  else if (seconds <? 3600)%Z then UpMinutes (seconds / 60)%Z (Z.rem seconds 60)
  else
    let hours := (seconds / 3600)%Z in
    let minutes := (Z.rem seconds 3600 / 60)%Z in
    UpHours hours minutes.

(** [formatUptime(seconds)] *)
Definition formatUptime (seconds : Z) : string :=
  match uptimeFields seconds with
  | UpSeconds s => String.append (Render.toStr s) "s"
  | UpMinutes m s =>
      String.append (Render.toStr m)
        (String.append "m " (String.append (Render.toStr s) "s"))
  | UpHours h m =>
      String.append (Render.toStr h)
        (String.append "h " (String.append (Render.toStr m) "m"))
  end.

(** The numbers [formatDuration] prints: no clamp, unlike the page. *)
Definition durationFields (ms : Z) : Z * Z * Z :=
  let totalSeconds := (ms / 1000)%Z in
  let minutes := (totalSeconds / 60)%Z in
  let seconds := Z.rem totalSeconds 60 in
  let millis := Z.rem ms 1000 in
  (minutes, seconds, millis).

(** [formatDuration(ms)] *)
Definition formatDuration (ms : Z) : string := Render.renderFields (durationFields ms).

End Agents.

Module Panel.

Import Bot.

(** The [disabled] flags of the three timer buttons in [buildControlPanel]. *)
Record Buttons : Type := mkButtons {
  startDisabled : bool;
  stopDisabled : bool;
  resetDisabled : bool
}.

(** The buttons of [buildControlPanel()]. *)
Definition buildControlPanel (f : File) : Buttons :=
  let state := getTimerState f in
  {| startDisabled := match status state with running => true | _ => false end;
     stopDisabled := match status state with running => false | _ => true end;
     resetDisabled := match status state with idle => true | _ => false end |}.

(** The refresh loop: the handle in [updateInterval], the intervals alive in
    the runtime, and the next handle [setInterval] will return. *)
Record Loop : Type := mkLoop {
  updateInterval : option nat;
  liveIntervals : list nat;
  nextHandle : nat
}.

(** [startControlPanelUpdates()] *)
Definition startControlPanelUpdates (l : Loop) : Loop :=
  match updateInterval l with
  | Some _ => l
  | None =>
      {| updateInterval := Some (nextHandle l);
         liveIntervals := nextHandle l :: liveIntervals l;
         nextHandle := S (nextHandle l) |}
  end.

(** [stopControlPanelUpdates()] *)
Definition stopControlPanelUpdates (l : Loop) : Loop :=
  match updateInterval l with
  | Some h =>
      {| updateInterval := None;
         liveIntervals := List.remove Nat.eq_dec h (liveIntervals l);
         nextHandle := nextHandle l |}
  | None => l
  end.

(** The file together with the refresh loop. *)
Definition Runtime : Type := (File * Loop)%type.

(** What touches both: the timer commands and [ClientReady]. *)
Inductive Trigger : Type :=
| Ready
| Start (env : Env)
| Stop (env : Env)
| Reset (env : Env).

Definition fire (t : Trigger) (rt : Runtime) : Runtime :=
  let '(f, l) := rt in
  match t with
  | Ready =>
      match status (getTimerState f) with
      | running => (f, startControlPanelUpdates l)
      | _ => (f, l)
      end
  | Start env =>
      match status (getTimerState f) with
      | running => (f, l)
      | _ => (fst (timerStart env f), startControlPanelUpdates l)
      end
  | Stop env =>
      match status (getTimerState f) with
      | running => (fst (timerStop env f), stopControlPanelUpdates l)
      | _ => (f, l)
      end
  | Reset env => (fst (timerReset env f), l)
  end.

Definition run (trace : list Trigger) (rt : Runtime) : Runtime :=
  fold_left (fun acc t => fire t acc) trace rt.



End Panel.

(** * Properties *)

(** ** Scheduled finish *)

Section ScheduledFinish.

Import Sched.

Lemma finishIfDue_not_running (st : State) (t : Z) :
  status st <> running -> finishIfDue (Some st) t = Some st.
Proof.
  intros Hs. unfold finishIfDue. destruct (status st); try reflexivity.
  now elim Hs.
Qed.

Lemma finishIfDue_due (st : State) (t due : Z) :
  Due st t due -> finishIfDue (Some st) t = Some (markFinished st due).
Proof.
  intros (Hs & Ha & Hnz & Hle). unfold finishIfDue. rewrite Hs, Ha.
  destruct (Z.eqb_spec due 0) as [E | _]; [now elim Hnz |].
  destruct (Z.ltb_spec t due) as [L | _]; [lia | reflexivity].
Qed.

Lemma finishIfDue_not_due (st : State) (t : Z) :
  (forall due, ~ Due st t due) -> finishIfDue (Some st) t = Some st.
Proof.
  intros Hn. unfold finishIfDue.
  destruct (status st) eqn:Hs; try reflexivity.
  destruct (autoFinishTs st) as [due |] eqn:Ha; try reflexivity.
  destruct (Z.eqb_spec due 0) as [E | Hnz]; [reflexivity |].
  destruct (Z.ltb_spec t due) as [L | Hle]; [reflexivity |].
  exfalso. apply (Hn due). repeat split; assumption.
Qed.

(** The guard [!autoFinishTs] also rejects the number 0: such a record is
    treated as having no scheduled finish. *)
Lemma finishIfDue_zero_is_unset (st : State) (t : Z) :
  autoFinishTs st = Some 0%Z -> finishIfDue (Some st) t = Some st.
Proof.
  intros Ha. unfold finishIfDue. rewrite Ha. destruct (status st); reflexivity.
Qed.

(** C1. [finishIfDue] hands the record back unchanged (a null record too)
    unless the session is running, a scheduled finish instant is set and [now]
    has reached it. In that case the result differs from the input only in
    [status], which is [finished], and in [finishTs], which is the scheduled
    instant and not [now]; evaluating the finished record again, at any
    instant, changes nothing, and any later first observation yields the same
    record. A record that is not running is returned as it is. *)
Theorem finishIfDue_records_scheduled_instant (st : State) (now : Z) :
  finishIfDue None now = None /\
  ((forall due, ~ Due st now due) -> finishIfDue (Some st) now = Some st) /\
  (status st <> running -> forall t, finishIfDue (Some st) t = Some st) /\
  (forall due, Due st now due ->
     exists out,
       finishIfDue (Some st) now = Some out /\
       status out = finished /\
       finishTs out = Some due /\
       startTs out = startTs st /\
       autoFinishTs out = autoFinishTs st /\
       (forall t, finishIfDue (Some out) t = Some out) /\
       (forall later, (now <= later)%Z -> finishIfDue (Some st) later = Some out)).
Proof.
  split; [reflexivity |].
  split; [apply finishIfDue_not_due |].
  split; [intros Hs t; now apply finishIfDue_not_running |].
  intros due Hd. exists (markFinished st due).
  split; [now apply finishIfDue_due |].
  do 4 (split; [reflexivity |]).
  split.
  - intros t. apply finishIfDue_not_running. simpl. discriminate.
  - intros later Hl. apply finishIfDue_due.
    destruct Hd as (Hs & Ha & Hnz & Hle).
    split; [exact Hs |]. split; [exact Ha |]. split; [exact Hnz | lia].
Qed.

(** The dev regression case of the source: due at 2000, noticed at 999999. *)
Lemma finishIfDue_records_scheduled_instant_witness :
  exists out,
    finishIfDue (Some devTestState) 999999 = Some out /\
    status out = finished /\
    finishTs out = Some 2000%Z.
Proof.
  destruct (finishIfDue_records_scheduled_instant devTestState 999999)
    as (_ & _ & _ & H).
  destruct (H 2000%Z) as (out & H1 & H2 & H3 & _).
  - unfold Due. simpl.
    split; [reflexivity |]. split; [reflexivity |]. split; [discriminate | lia].
  - exists out. repeat split; assumption.
Defined.

End ScheduledFinish.

(** ** The history store *)

Section HistoryStore.

Import History.

(** What [loadHistory] returns, slot by slot. *)
Lemma loadHistory_cases (ls : LocalStorage) :
  loadHistory ls =
  if getItemThrows ls then []
  else match item ls with
       | Some (TextJson (JArr items)) => items
       | _ => []
       end.
Proof.
  unfold loadHistory, loadHistoryTry, getItem, tryCatch.
  destruct (getItemThrows ls); [reflexivity |].
  destruct (item ls) as [[| | v] |]; try reflexivity.
  destruct v; reflexivity.
Qed.

(** Inside the [try] block, text that is not JSON does raise. *)
Lemma loadHistoryTry_raises_on_malformed (ls : LocalStorage) :
  getItemThrows ls = false -> item ls = Some TextMalformed ->
  loadHistoryTry ls = inl "SyntaxError".
Proof.
  intros Hg Hi. unfold loadHistoryTry, getItem. rewrite Hg. cbn. rewrite Hi. reflexivity.
Qed.

(** C10. Whatever the history slot holds that is not a serialized array (it is
    absent, empty, not valid JSON, or valid JSON of another shape), and also
    when the storage refuses the read, [loadHistory] returns the empty list:
    the exception raised inside its [try] block never leaves it. *)
Theorem loadHistory_empty_on_missing_or_corrupt_slot (ls : LocalStorage) :
  unusableSlot ls -> loadHistory ls = [].
Proof.
  intros H. rewrite loadHistory_cases. unfold unusableSlot in H.
  destruct (getItemThrows ls); [reflexivity |].
  destruct H as [H | [H | [H | [H | (v & H & Hv)]]]].
  - discriminate.
  - now rewrite H.
  - now rewrite H.
  - now rewrite H.
  - rewrite H. destruct v; try reflexivity. discriminate.
Qed.

(** A slot holding the JSON object [{"a": 1}], and one holding garbage. *)
Lemma loadHistory_empty_on_missing_or_corrupt_slot_witness :
  loadHistory (mkStorage false false (Some (TextJson (JObj [("a", JNum 1)])))) = [] /\
  loadHistory (mkStorage false false (Some TextMalformed)) = [] /\
  loadHistory (mkStorage false false None) = [].
Proof.
  split; [| split].
  - apply loadHistory_empty_on_missing_or_corrupt_slot.
    right. right. right. right. eexists. split; reflexivity.
  - apply loadHistory_empty_on_missing_or_corrupt_slot.
    right. right. right. left. reflexivity.
  - apply loadHistory_empty_on_missing_or_corrupt_slot.
    right. left. reflexivity.
Defined.

Lemma firstn_app_firstn {A : Type} (n : nat) (a b : list A) :
  firstn n (a ++ firstn n b) = firstn n (a ++ b).
Proof.
  rewrite !firstn_app, firstn_firstn.
  f_equal. f_equal. lia.
Qed.

(** The storage after a push. *)
Lemma pushSessionToHistory_cases (session : Json) (ls : LocalStorage) :
  pushSessionToHistory session ls =
  if setItemThrows ls then ls
  else mkStorage (getItemThrows ls) false
         (Some (TextJson (JArr (firstn HISTORY_LIMIT
                                  (firstn HISTORY_LIMIT (session :: loadHistory ls)))))).
Proof.
  unfold pushSessionToHistory, saveHistory, setItem, tryCatch.
  destruct (setItemThrows ls); reflexivity.
Qed.

Lemma pushSessionToHistory_usable (session : Json) (ls : LocalStorage) :
  usable ls -> usable (pushSessionToHistory session ls).
Proof.
  intros [Hg Hs]. rewrite pushSessionToHistory_cases, Hs.
  split; [exact Hg | reflexivity].
Qed.

Lemma loadHistory_push (session : Json) (ls : LocalStorage) :
  usable ls ->
  loadHistory (pushSessionToHistory session ls)
  = firstn HISTORY_LIMIT (session :: loadHistory ls).
Proof.
  intros [Hg Hs]. rewrite pushSessionToHistory_cases, Hs.
  rewrite (loadHistory_cases (mkStorage _ _ _)). cbn [getItemThrows item]. rewrite Hg.
  rewrite firstn_firstn. f_equal.
Qed.

(** A refused write leaves the stored history as it was. *)
Lemma pushSessionToHistory_write_refused (session : Json) (ls : LocalStorage) :
  setItemThrows ls = true -> pushSessionToHistory session ls = ls.
Proof.
  intros Hs. now rewrite pushSessionToHistory_cases, Hs.
Qed.

(** Whether the write goes through or not, a push keeps the bound. *)
Lemma loadHistory_push_bounded (session : Json) (ls : LocalStorage) :
  (List.length (loadHistory ls) <= HISTORY_LIMIT)%nat ->
  (List.length (loadHistory (pushSessionToHistory session ls)) <= HISTORY_LIMIT)%nat.
Proof.
  intros Hb. rewrite pushSessionToHistory_cases.
  destruct (setItemThrows ls) eqn:Hs; [exact Hb |].
  rewrite (loadHistory_cases (mkStorage _ _ _)). cbn [getItemThrows item].
  destruct (getItemThrows ls); [simpl; lia |].
  rewrite firstn_firstn. apply firstn_le_length.
Qed.

Lemma pushAll_usable (sessions : list Json) (ls : LocalStorage) :
  usable ls -> usable (pushAll sessions ls).
Proof.
  revert ls. induction sessions as [| s rest IH]; intros ls Hu; [exact Hu |].
  apply IH. now apply pushSessionToHistory_usable.
Qed.

Lemma loadHistory_pushAll (s : Json) (rest : list Json) (ls : LocalStorage) :
  usable ls ->
  loadHistory (pushAll (s :: rest) ls)
  = firstn HISTORY_LIMIT (rev (s :: rest) ++ loadHistory ls).
Proof.
  revert s ls. induction rest as [| r rest' IH]; intros s ls Hu.
  - simpl. now apply loadHistory_push.
  - change (pushAll (s :: r :: rest') ls)
      with (pushAll (r :: rest') (pushSessionToHistory s ls)).
    rewrite IH by now apply pushSessionToHistory_usable.
    rewrite loadHistory_push by exact Hu.
    rewrite firstn_app_firstn.
    change (rev (s :: r :: rest')) with (rev (r :: rest') ++ [s]).
    rewrite <- app_assoc. reflexivity.
Qed.

(** C8. After any sequence of sessions has been appended, the newest last, to
    a working store, the stored history lists them most recent first, ahead of
    what was stored before, cut to [HISTORY_LIMIT] = 10 entries: the newest
    session is at index 0, the length never exceeds 10, and once ten or more
    sessions have been appended (so after the 11th) the length is exactly 10
    and only appended sessions remain. *)
Theorem history_bounded_most_recent_first
    (ls : LocalStorage) (older : list Json) (newest : Json) :
  usable ls ->
  let h := loadHistory (pushAll (older ++ [newest]) ls) in
  h = firstn HISTORY_LIMIT (newest :: rev older ++ loadHistory ls) /\
  nth_error h 0 = Some newest /\
  (List.length h <= HISTORY_LIMIT)%nat /\
  ((HISTORY_LIMIT <= List.length (older ++ [newest]))%nat ->
     List.length h = HISTORY_LIMIT /\
     h = firstn HISTORY_LIMIT (newest :: rev older)).
Proof.
  intros Hu h.
  assert (Hh : h = firstn HISTORY_LIMIT (newest :: rev older ++ loadHistory ls)).
  { subst h.
    assert (E : exists s rest, older ++ [newest] = s :: rest).
    { destruct older as [| o older']; simpl; eauto. }
    destruct E as (s & rest & E). rewrite E.
    rewrite loadHistory_pushAll by exact Hu.
    rewrite <- E, rev_app_distr. reflexivity. }
  split; [exact Hh |].
  split; [rewrite Hh; reflexivity |].
  split; [rewrite Hh; apply firstn_le_length |].
  intros Hlen. rewrite Hh.
  rewrite app_comm_cons, firstn_app.
  assert (Hl : List.length (newest :: rev older) = List.length (older ++ [newest])).
  { simpl. rewrite length_rev, length_app. simpl. lia. }
  replace (HISTORY_LIMIT - List.length (newest :: rev older))%nat with 0%nat by lia.
  rewrite firstn_O, app_nil_r.
  split; [| reflexivity].
  rewrite length_firstn. lia.
Qed.

(** Eleven sessions pushed into an empty store. *)
Lemma history_bounded_most_recent_first_witness :
  let pushed := map JNum [1; 2; 3; 4; 5; 6; 7; 8; 9; 10; 11]%Z in
  let h := loadHistory (pushAll pushed emptyStorage) in
  List.length h = 10%nat /\ nth_error h 0 = Some (JNum 11).
Proof.
  intros pushed h.
  destruct (history_bounded_most_recent_first emptyStorage
              (map JNum [1; 2; 3; 4; 5; 6; 7; 8; 9; 10]%Z) (JNum 11))
    as (_ & Hhd & _ & Hfull).
  - split; reflexivity.
  - split; [apply Hfull; simpl; unfold HISTORY_LIMIT; lia | exact Hhd].
Defined.

End HistoryStore.

(** ** Substring search *)

Section Strings.

Import Js.

Lemma isPrefixOf_spec (needle hay : string) :
  isPrefixOf needle hay = true <-> exists rest, hay = String.append needle rest.
Proof.
  revert hay. induction needle as [| a needle' IH]; intros hay.
  - simpl. split; [intros _; now exists hay | reflexivity].
  - destruct hay as [| b hay']; simpl.
    + split; [discriminate | intros (rest & H); discriminate].
    + rewrite andb_true_iff, Ascii.eqb_eq, IH. split.
      * intros (-> & rest & ->). now exists rest.
      * intros (rest & H). injection H as -> ->. split; [reflexivity | now exists rest].
Qed.

Lemma includes_spec (hay needle : string) :
  includes hay needle = true <-> App.Substring needle hay.
Proof.
  unfold App.Substring. induction hay as [| c hay' IH].
  - simpl. rewrite orb_false_r, isPrefixOf_spec. split.
    + intros (rest & H). exists EmptyString, rest. exact H.
    + intros (before & after & H). destruct before; [| discriminate].
      now exists after.
  - simpl. rewrite orb_true_iff, IH.
    change (match needle with
            | EmptyString => true
            | String a needle' =>
                Ascii.eqb a c && isPrefixOf needle' hay'
            end) with (isPrefixOf needle (String c hay')).
    rewrite isPrefixOf_spec. split.
    + intros [(rest & H) | (before & after & H)].
      * exists EmptyString, rest. exact H.
      * exists (String c before), after. simpl. now rewrite H.
    + intros (before & after & H). destruct before as [| c' before'].
      * left. now exists after.
      * right. simpl in H. injection H as -> ->. now exists before', after.
Qed.

(** Every string contains the empty string. *)
Lemma includes_empty (hay : string) : includes hay EmptyString = true.
Proof. destruct hay; reflexivity. Qed.

Lemma includes_refl (s : string) : includes s s = true.
Proof.
  apply includes_spec. exists EmptyString, EmptyString. simpl.
  induction s as [| c s IH]; simpl; [reflexivity | now rewrite <- IH].
Qed.

End Strings.

(** ** The recognizer: arming and disarming *)

Section Recognizer.

Import History App.

(** [stopRecognition] in closed form: whatever the recognizer does inside
    [stop()], the handler is null while it runs, so nothing is restarted. *)
Lemma stopRecognition_cases (env : Env) (w : World) :
  stopRecognition env w =
  match recognition w with
  | None => set_recognitionStarting false w
  | Some _ =>
      set_recognition (Some {| onendSet := true |})
        (set_recCalls (recCalls w ++ [CallStop]) (set_recognitionStarting false w))
  end.
Proof.
  destruct w as [st sa ea sr sup [r |] rs lt ve vm ki sto calls]; [| reflexivity].
  unfold stopRecognition. cbn.
  destruct (stopThrows env), (stopFiresEnd env); reflexivity.
Qed.

Lemma startCalls_app_stop (w : World) (calls : list RecCall) :
  startCalls (set_recCalls (calls ++ [CallStop]) w) = startCalls (set_recCalls calls w).
Proof.
  unfold startCalls. cbn. rewrite filter_app, length_app. simpl. lia.
Qed.

Lemma stopRecognition_startCalls (env : Env) (w : World) :
  startCalls (stopRecognition env w) = startCalls w.
Proof.
  rewrite stopRecognition_cases.
  destruct w as [st sa ea sr sup [r |] rs lt ve vm ki sto calls]; [| reflexivity].
  unfold startCalls. cbn. rewrite filter_app, length_app. simpl. lia.
Qed.

Lemma stopRecognition_settles (env : Env) (w : World) :
  recognitionStarting (stopRecognition env w) = false.
Proof.
  rewrite stopRecognition_cases. destruct (recognition w); reflexivity.
Qed.




(** While a start is pending, [startRecognition] returns at its debounce guard. *)
Lemma startRecognition_pending (env : Env) (w : World) :
  recognitionStarting w = true -> startRecognition env w = w.
Proof.
  intros Hp. unfold startRecognition. rewrite Hp.
  destruct (negb (speechSupported w) || negb (voiceEnabled w)); [reflexivity |].
  destruct (status w); reflexivity.
Qed.

End Recognizer.

(** ** The timer state machine of the page *)

Section Machine.

Import History App.

(** Case analysis on a world and on every test its handlers make. *)
Ltac world_cases w :=
  destruct w as [st sa ea sr sup rec rs lt ve vm ki sto calls].

Lemma handleStart_running (env : Env) (w : World) :
  status w = running -> handleStart env w = w.
Proof. intros Hs. unfold handleStart. now rewrite Hs. Qed.

Lemma startRecognition_timer (env : Env) (w : World) :
  let w' := startRecognition env w in
  status w' = status w /\ startedAtMs w' = startedAtMs w /\
  endedAtMs w' = endedAtMs w /\ stopReason w' = stopReason w /\
  storage w' = storage w.
Proof.
  world_cases w. unfold startRecognition, ensureRecognition. cbn.
  destruct sup, ve, st, rs, rec, (startThrows env); cbn; repeat split; reflexivity.
Qed.

Lemma handleStart_not_running (env : Env) (w : World) :
  status w <> running ->
  let w' := handleStart env w in
  status w' = running /\ startedAtMs w' = Some (now env) /\
  endedAtMs w' = None /\ stopReason w' = None /\ storage w' = storage w.
Proof.
  intros Hs. unfold handleStart.
  destruct (status w) eqn:E; try (now elim Hs);
    match goal with |- context [startRecognition env ?x] =>
      destruct (startRecognition_timer env x) as (H1 & H2 & H3 & H4 & H5);
      cbv zeta; rewrite H1, H2, H3, H4, H5; rewrite stopRecognition_cases;
      destruct (recognition w); cbn; repeat split; reflexivity
    end.
Qed.

Lemma handleStart_status (env : Env) (w : World) : status (handleStart env w) = running.
Proof.
  destruct (status w) eqn:E;
    try (apply handleStart_not_running; rewrite E; discriminate).
  now rewrite handleStart_running.
Qed.

Lemma handleStop_effect (env : Env) (reason : StopReason) (t : string) (w : World)
    (started : Z) :
  status w = running -> startedAtMs w = Some started ->
  let w' := handleStop env reason t w in
  status w' = stopped /\ startedAtMs w' = Some started /\
  endedAtMs w' = Some (now env) /\ stopReason w' = Some reason /\
  recognitionStarting w' = false /\
  startCalls w' = startCalls w /\
  storage w' =
    pushSessionToHistory
      (buildSession env reason started (now env)
         (Js.clampNonNeg (now env - started)) w) (storage w).
Proof.
  intros Hs Ha. unfold handleStop. rewrite Hs, Ha. rewrite stopRecognition_cases.
  world_cases w. cbn in *. subst.
  destruct rec; cbn; repeat split; try reflexivity.
  unfold startCalls. cbn. rewrite filter_app, length_app. simpl. lia.
Qed.

Lemma handleStop_noop (env : Env) (reason : StopReason) (t : string) (w : World) :
  status w <> running \/ startedAtMs w = None -> handleStop env reason t w = w.
Proof.
  intros H. unfold handleStop.
  destruct (status w); try reflexivity. destruct (startedAtMs w); [| reflexivity].
  destruct H as [H | H]; [now elim H | discriminate].
Qed.

Lemma coherent_timer (w w' : World) :
  status w' = status w -> startedAtMs w' = startedAtMs w ->
  endedAtMs w' = endedAtMs w -> stopReason w' = stopReason w ->
  Coherent w -> Coherent w'.
Proof. unfold Coherent. intros -> -> -> ->. exact (fun H => H). Qed.

Lemma handleStop_coherent (env : Env) (reason : StopReason) (t : string) (w : World) :
  Coherent w -> Coherent (handleStop env reason t w).
Proof.
  intros Hc.
  destruct (status w) eqn:Hs; try (rewrite handleStop_noop; [exact Hc | left; rewrite Hs; discriminate]).
  destruct (startedAtMs w) as [started |] eqn:Ha;
    [| rewrite handleStop_noop; [exact Hc | now right]].
  destruct (handleStop_effect env reason t w started Hs Ha) as (H1 & H2 & H3 & H4 & _).
  unfold Coherent. rewrite H1, H2, H3, H4. repeat split; discriminate.
Qed.

Lemma handleStart_coherent (env : Env) (w : World) :
  Coherent w -> Coherent (handleStart env w).
Proof.
  intros Hc. destruct (status w) eqn:Hs;
    try (destruct (handleStart_not_running env w) as (H1 & H2 & H3 & H4 & _);
         [rewrite Hs; discriminate |];
         unfold Coherent; rewrite H1, H2, H3, H4; repeat split; discriminate).
  now rewrite handleStart_running.
Qed.

Lemma handleReset_effect (env : Env) (w : World) :
  let w' := handleReset env w in
  status w' = idle /\ startedAtMs w' = None /\ endedAtMs w' = None /\
  stopReason w' = None /\ recognitionStarting w' = false /\
  startCalls w' = startCalls w /\ storage w' = storage w.
Proof.
  unfold handleReset. rewrite stopRecognition_cases. world_cases w. cbn.
  destruct rec; cbn; repeat split; try reflexivity.
  unfold startCalls. cbn. rewrite filter_app, length_app. simpl. lia.
Qed.

Lemma handleReset_coherent (env : Env) (w : World) : Coherent (handleReset env w).
Proof.
  destruct (handleReset_effect env w) as (H1 & H2 & H3 & H4 & _).
  unfold Coherent. rewrite H1, H2, H3, H4. repeat split.
Qed.

(** The live policy either leaves the world alone or is one [handleStop]. *)
Lemma maybeVoiceStop_cases (env : Env) (t : string) (w : World) :
  maybeVoiceStop env t w = w \/
  exists reason, maybeVoiceStop env t w = handleStop env reason t w.
Proof.
  unfold maybeVoiceStop.
  destruct (status w); auto. destruct (negb (voiceEnabled w)); auto.
  destruct (getVoiceMode w); [right; eauto |].
  destruct (Js.isEmpty (getKeyword w)); auto.
  destruct (Js.includes _ _); [right; eauto | auto].
Qed.

Lemma simulateClick_cases (env : Env) (w : World) :
  simulateClick env w = w \/
  exists reason, simulateClick env w = handleStop env reason (simulatedTranscript w) w.
Proof.
  unfold simulateClick.
  destruct (status w); auto.
  destruct (getVoiceMode w); [right; eauto |].
  destruct (Js.includes _ _); [right; eauto | auto].
Qed.

Lemma sameTimer_refl (w : World) : sameTimer w w.
Proof. repeat split. Qed.

Lemma sameTimer_trans (a b c : World) : sameTimer a b -> sameTimer b c -> sameTimer a c.
Proof.
  intros (A1 & A2 & A3 & A4 & A5) (B1 & B2 & B3 & B4 & B5).
  repeat split; congruence.
Qed.

Lemma coherent_sameTimer (w w' : World) : sameTimer w' w -> Coherent w -> Coherent w'.
Proof. intros (A1 & A2 & A3 & A4 & _). now apply coherent_timer. Qed.

Lemma startRecognition_sameTimer (env : Env) (w : World) :
  sameTimer (startRecognition env w) w.
Proof. apply startRecognition_timer. Qed.

Lemma stopRecognition_sameTimer (env : Env) (w : World) :
  sameTimer (stopRecognition env w) w.
Proof.
  rewrite stopRecognition_cases. destruct (recognition w); repeat split; reflexivity.
Qed.

Lemma fireEnd_sameTimer (env : Env) (w : World) : sameTimer (fireEnd env w) w.
Proof.
  unfold fireEnd, onend.
  destruct (recognition w) as [[[|]] |]; try apply sameTimer_refl.
  destruct (status w); try apply sameTimer_refl.
  destruct (voiceEnabled w && speechSupported w); [| apply sameTimer_refl].
  apply startRecognition_sameTimer.
Qed.

Lemma voiceEnabledChange_sameTimer (env : Env) (checked : bool) (w : World) :
  sameTimer (voiceEnabledChange env checked w) w.
Proof.
  unfold voiceEnabledChange. cbv zeta.
  set (w0 := set_voiceEnabled checked w).
  assert (H0 : sameTimer w0 w) by (repeat split; reflexivity).
  set (w1 := match status w0 with
             | running => if voiceEnabled w0 then startRecognition env w0 else w0
             | _ => w0
             end).
  assert (H1 : sameTimer w1 w0).
  { subst w1. destruct (status w0); try apply sameTimer_refl.
    destruct (voiceEnabled w0); [| apply sameTimer_refl].
    apply startRecognition_sameTimer. }
  destruct (negb (voiceEnabled w1)).
  - eapply sameTimer_trans; [apply stopRecognition_sameTimer |].
    eapply sameTimer_trans; eassumption.
  - eapply sameTimer_trans; eassumption.
Qed.

Lemma maybeVoiceStop_coherent (env : Env) (t : string) (w : World) :
  Coherent w -> Coherent (maybeVoiceStop env t w).
Proof.
  intros Hc. destruct (maybeVoiceStop_cases env t w) as [-> | (r & ->)];
    [exact Hc | now apply handleStop_coherent].
Qed.

Lemma simulateClick_coherent (env : Env) (w : World) :
  Coherent w -> Coherent (simulateClick env w).
Proof.
  intros Hc. destruct (simulateClick_cases env w) as [-> | (r & ->)];
    [exact Hc | now apply handleStop_coherent].
Qed.

Lemma step_coherent (env : Env) (ev : Event) (w : World) :
  Coherent w -> Coherent (step env ev w).
Proof.
  intros Hc. destruct ev; cbn [step].
  - now apply handleStart_coherent.
  - now apply handleStop_coherent.
  - apply handleReset_coherent.
  - now apply simulateClick_coherent.
  - eapply coherent_sameTimer; [apply voiceEnabledChange_sameTimer | exact Hc].
  - exact Hc.
  - exact Hc.
  - destruct (recognition w); exact Hc.
  - eapply coherent_sameTimer; [apply fireEnd_sameTimer | exact Hc].
  - exact Hc.
  - destruct (recognition w); [| exact Hc]. unfold onresult.
    destruct (Js.isEmpty _); [exact Hc |]. apply maybeVoiceStop_coherent. exact Hc.
  - eapply coherent_sameTimer; [apply stopRecognition_sameTimer | exact Hc].
Qed.

Lemma reachable_coherent (w : World) : Reachable w -> Coherent w.
Proof.
  induction 1 as [sup chk mode kw ls | env ev w _ IH].
  - unfold Coherent. cbn. repeat split.
  - now apply step_coherent.
Qed.



End Machine.

(** ** The restart loop of the recognition stream *)

Section RecognitionRestart.

Import History App.



End RecognitionRestart.

(** ** The auto-stop policy *)

Section AutoStopPolicy.

Import History App.

Lemma isEmpty_true_iff (s : string) : Js.isEmpty s = true <-> s = "".
Proof. destruct s; simpl; split; congruence. Qed.

Lemma isEmpty_false_iff (s : string) : Js.isEmpty s = false <-> s <> "".
Proof. destruct s; simpl; split; congruence. Qed.

Lemma orElse_nonempty (a b : string) : a <> "" -> Js.orElse a b = a.
Proof. intros H. unfold Js.orElse. apply isEmpty_false_iff in H. now rewrite H. Qed.

Lemma running_started (w : World) :
  Reachable w -> status w = running -> exists started, startedAtMs w = Some started.
Proof.
  intros Hr Hs. pose proof (reachable_coherent w Hr) as Hc.
  unfold Coherent in Hc. rewrite Hs in Hc. destruct Hc as (Ha & _).
  destruct (startedAtMs w) as [started |]; [now exists started | now elim Ha].
Qed.

(** C3. In a running session with voice enabled and keyword mode, the live
    policy stops the session with reason [voice_keyword] exactly when the
    lower-cased utterance contains the lower-cased (trimmed, non-empty)
    keyword as a substring, and otherwise leaves the world untouched; with an
    empty trimmed keyword no utterance stops the session. *)
Theorem keyword_mode_stops_iff_keyword_heard
    (env : Env) (utterance : string) (w : World) :
  Reachable w -> KeywordArmed w ->
  let w' := maybeVoiceStop env utterance w in
  let heard := Substring (Js.toLowerCase (getKeyword w)) (Js.toLowerCase utterance) in
  (getKeyword w <> "" ->
     ((status w' = stopped /\ stopReason w' = Some voice_keyword) <-> heard) /\
     (heard -> w' = handleStop env voice_keyword utterance w) /\
     (~ heard -> w' = w)) /\
  (getKeyword w = "" -> w' = w).
Proof.
  intros Hr (Hs & Hv & Hm) w' heard.
  destruct (running_started w Hr Hs) as (started & Ha).
  assert (Hw' : w' = if Js.isEmpty (getKeyword w) then w
                     else if Js.includes (Js.toLowerCase utterance)
                                         (Js.toLowerCase (getKeyword w))
                          then handleStop env voice_keyword utterance w else w).
  { subst w'. unfold maybeVoiceStop. rewrite Hs, Hv, Hm. reflexivity. }
  split.
  - intros Hk. apply isEmpty_false_iff in Hk. rewrite Hk in Hw'.
    destruct (Js.includes (Js.toLowerCase utterance) (Js.toLowerCase (getKeyword w)))
      eqn:Hi.
    + assert (Hh : heard) by (now apply includes_spec).
      split; [| split]; [| intros _; exact Hw' | intros Hn; now elim Hn].
      split; [intros _; exact Hh | intros _].
      rewrite Hw'.
      destruct (handleStop_effect env voice_keyword utterance w started Hs Ha)
        as (H1 & _ & _ & H4 & _).
      split; assumption.
    + assert (Hh : ~ heard).
      { intros Hh. apply includes_spec in Hh. congruence. }
      split; [| split]; [| intros Hy; now elim Hh | intros _; exact Hw'].
      split; [| intros Hy; now elim Hh].
      rewrite Hw', Hs. intros (Hc & _). discriminate.
  - intros Hk. apply isEmpty_true_iff in Hk. now rewrite Hk in Hw'.
Qed.

(** Keyword "stop", utterance "Please STOP now". *)
Lemma keyword_mode_stops_iff_keyword_heard_witness :
  let env := mkEnv 1000 "id-1" false false false in
  let w := step env ClickStart (init true true (Some "keyword") " stop " emptyStorage) in
  let w' := maybeVoiceStop env "Please STOP now" w in
  status w' = stopped /\ stopReason w' = Some voice_keyword.
Proof.
  intros env w w'.
  assert (Hr : Reachable w) by (apply reach_step, reach_init).
  assert (Hk : KeywordArmed w) by (repeat split; reflexivity).
  destruct (keyword_mode_stops_iff_keyword_heard env "Please STOP now" w Hr Hk)
    as (Hne & _).
  destruct Hne as (Hiff & _).
  - discriminate.
  - apply Hiff. exists "please ", " now". reflexivity.
Defined.

(** C2, as the code has it. Where voice is enabled and, in keyword mode, a
    keyword is configured, and also whenever the session is not running, the
    simulate button does exactly what the live policy does on the simulated
    transcript: the same transition with the same stop reason. The button
    does not read the voice-enabled flag: whether a stop is issued, and with
    which reason, is the same whatever the flag is. *)
Theorem simulate_follows_live_policy_when_armed (env : Env) (w : World) :
  (SimulateFollowsPolicy w \/ status w <> running ->
     simulateClick env w = maybeVoiceStop env (simulatedTranscript w) w) /\
  (forall flag,
     status (simulateClick env (set_voiceEnabled flag w)) = status (simulateClick env w) /\
     stopReason (simulateClick env (set_voiceEnabled flag w))
       = stopReason (simulateClick env w)).
Proof.
  split.
  - intros [(Hv & Hmode) | Hs].
    + unfold simulateClick, maybeVoiceStop, simulatedTranscript.
      destruct (status w); try reflexivity. rewrite Hv. cbn [negb].
      destruct (getVoiceMode w) eqn:Hm; [reflexivity |].
      destruct Hmode as [Hany | Hk]; [discriminate |].
      rewrite (orElse_nonempty _ _ Hk).
      apply isEmpty_false_iff in Hk. rewrite Hk. reflexivity.
    + unfold simulateClick, maybeVoiceStop.
      destruct (status w); try reflexivity. now elim Hs.
  - intros flag. unfold simulateClick, simulatedTranscript.
    change (status (set_voiceEnabled flag w)) with (status w).
    change (getVoiceMode (set_voiceEnabled flag w)) with (getVoiceMode w).
    change (getKeyword (set_voiceEnabled flag w)) with (getKeyword w).
    assert (Hstop : forall reason t,
               status (handleStop env reason t (set_voiceEnabled flag w))
                 = status (handleStop env reason t w) /\
               stopReason (handleStop env reason t (set_voiceEnabled flag w))
                 = stopReason (handleStop env reason t w)).
    { intros reason t. unfold handleStop. rewrite !stopRecognition_cases.
      destruct w as [st sa ea sr sup rec rs lt ve vm ki sto calls]. cbn.
      destruct st, sa, rec; cbn; split; reflexivity. }
    destruct (status w); try (split; reflexivity).
    destruct (getVoiceMode w); [apply Hstop |].
    destruct (Js.includes _ _); [apply Hstop | split; reflexivity].
Qed.

(** Voice on, keyword "go": the button and the live policy both stop the
    session with reason [voice_keyword]. *)
Lemma simulate_follows_live_policy_when_armed_witness :
  let env := mkEnv 1000 "id-1" false false false in
  let w := step env ClickStart (init true true (Some "keyword") "go" emptyStorage) in
  simulateClick env w = maybeVoiceStop env "go" w /\
  stopReason (simulateClick env w) = Some voice_keyword.
Proof.
  intros env w.
  destruct (simulate_follows_live_policy_when_armed env w) as (Hsame & _).
  split; [| reflexivity].
  apply Hsame. left. split; [reflexivity | right; discriminate].
Defined.

(** C2 fails as stated. With voice disabled (here: recognition unsupported)
    and mode [any], the button stops a running session with reason
    [voice_any], while the live policy ignores every utterance. With voice
    enabled, keyword mode and no keyword, the button stops with reason
    [voice_keyword] on its default transcript "stop", which the live policy
    ignores. *)
Lemma simulate_diverges_from_live_policy :
  let env := mkEnv 1000 "id-1" false false false in
  let w1 := step env ClickStart (init false false None "" emptyStorage) in
  let w2 := step env ClickStart (init true true (Some "keyword") "" emptyStorage) in
  (simulateClick env w1 <> maybeVoiceStop env (simulatedTranscript w1) w1 /\
   status w1 = running /\
   status (simulateClick env w1) = stopped /\
   stopReason (simulateClick env w1) = Some voice_any /\
   simulatedTranscript w1 = "hello" /\
   maybeVoiceStop env "hello" w1 = w1) /\
  (simulateClick env w2 <> maybeVoiceStop env (simulatedTranscript w2) w2 /\
   status w2 = running /\
   status (simulateClick env w2) = stopped /\
   stopReason (simulateClick env w2) = Some voice_keyword /\
   simulatedTranscript w2 = "stop" /\
   maybeVoiceStop env "stop" w2 = w2).
Proof.
  intros env w1 w2.
  assert (R1 : status w1 = running) by (vm_compute; reflexivity).
  assert (R2 : status w2 = running) by (vm_compute; reflexivity).
  assert (S1 : status (simulateClick env w1) = stopped) by (vm_compute; reflexivity).
  assert (S2 : status (simulateClick env w2) = stopped) by (vm_compute; reflexivity).
  assert (L1 : maybeVoiceStop env "hello" w1 = w1) by (vm_compute; reflexivity).
  assert (L2 : maybeVoiceStop env "stop" w2 = w2) by (vm_compute; reflexivity).
  assert (T1 : simulatedTranscript w1 = "hello") by (vm_compute; reflexivity).
  assert (T2 : simulatedTranscript w2 = "stop") by (vm_compute; reflexivity).
  split.
  - split; [rewrite T1, L1; intros H; rewrite H, R1 in S1; discriminate S1 |].
    split; [exact R1 |]. split; [exact S1 |].
    split; [vm_compute; reflexivity |]. split; [exact T1 | exact L1].
  - split; [rewrite T2, L2; intros H; rewrite H, R2 in S2; discriminate S2 |].
    split; [exact R2 |]. split; [exact S2 |].
    split; [vm_compute; reflexivity |]. split; [exact T2 | exact L2].
Qed.

End AutoStopPolicy.

(** ** What a stop records *)

Section StoredSession.

Import History App.

(** A transition of the live policy into [stopped] is [handleStop] with the
    reason of the active mode. *)
Lemma maybeVoiceStop_stopped (env : Env) (t : string) (w : World) :
  status w = running -> status (maybeVoiceStop env t w) = stopped ->
  maybeVoiceStop env t w =
  handleStop env (match getVoiceMode w with any => voice_any | keyword => voice_keyword end)
    t w.
Proof.
  intros Hs. unfold maybeVoiceStop. rewrite Hs.
  destruct (negb (voiceEnabled w)); [rewrite Hs; discriminate |].
  destruct (getVoiceMode w); [reflexivity |].
  destruct (Js.isEmpty (getKeyword w)); [rewrite Hs; discriminate |].
  destruct (Js.includes _ _); [reflexivity | rewrite Hs; discriminate].
Qed.

Lemma handleStop_storage_ignores_transcripts
    (env : Env) (reason : StopReason) (t t' last' : string) (w : World) :
  storage (handleStop env reason t' (set_lastTranscript last' w))
  = storage (handleStop env reason t w).
Proof.
  unfold handleStop. rewrite !stopRecognition_cases.
  destruct w as [st sa ea sr sup rec rs lt ve vm ki sto calls]. cbn.
  destruct st, sa, rec; reflexivity.
Qed.

(** C9. Every stop of a running session appends one session object whose
    [transcriptSnippet] is null, whose [voiceEnabled], [voiceMode] and
    [keyword] are the configured values (the keyword is the text of the
    keyword box, not what was heard), and which does not depend on any
    transcript: the storage after the stop is the same whatever utterance is
    passed to [handleStop] and whatever [lastTranscript] holds; two utterances
    that both make the live policy stop leave the same storage. *)
Theorem stored_session_holds_no_transcript
    (env : Env) (reason : StopReason) (transcript : string) (w : World) :
  Reachable w -> status w = running ->
  let w' := handleStop env reason transcript w in
  (exists session,
     storage w' = pushSessionToHistory session (storage w) /\
     (usable (storage w) -> nth_error (loadHistory (storage w')) 0 = Some session) /\
     field "transcriptSnippet" session = Some JNull /\
     field "voiceEnabled" session = Some (JBool (voiceEnabled w)) /\
     field "voiceMode" session
       = Some (if voiceEnabled w then JStr (modeText (getVoiceMode w)) else JNull) /\
     field "keyword" session
       = Some (if voiceEnabled w
               then match getVoiceMode w with
                    | keyword => JStr (getKeyword w)
                    | any => JNull
                    end
               else JNull)) /\
  (forall transcript' last',
     storage (handleStop env reason transcript' (set_lastTranscript last' w))
     = storage w') /\
  (forall heard heard' last last',
     status (maybeVoiceStop env heard (set_lastTranscript last w)) = stopped ->
     status (maybeVoiceStop env heard' (set_lastTranscript last' w)) = stopped ->
     storage (maybeVoiceStop env heard (set_lastTranscript last w))
     = storage (maybeVoiceStop env heard' (set_lastTranscript last' w))).
Proof.
  intros Hr Hs w'.
  destruct (running_started w Hr Hs) as (started & Ha).
  split; [| split].
  - destruct (handleStop_effect env reason transcript w started Hs Ha)
      as (_ & _ & _ & _ & _ & _ & H7).
    fold w' in H7. eexists. split; [exact H7 |].
    split; [| repeat split; reflexivity].
    intros Hu. rewrite H7, loadHistory_push by exact Hu. reflexivity.
  - intros transcript' last'. apply handleStop_storage_ignores_transcripts.
  - intros heard heard' last last' H1 H2.
    rewrite (maybeVoiceStop_stopped env heard (set_lastTranscript last w) Hs H1).
    rewrite (maybeVoiceStop_stopped env heard' (set_lastTranscript last' w) Hs H2).
    change (getVoiceMode (set_lastTranscript last w)) with (getVoiceMode w).
    change (getVoiceMode (set_lastTranscript last' w)) with (getVoiceMode w).
    rewrite (handleStop_storage_ignores_transcripts env _ heard heard last w).
    rewrite (handleStop_storage_ignores_transcripts env _ heard heard' last' w).
    reflexivity.
Qed.

(** A keyword stop triggered by "please stop the timer": the stored session
    keeps the keyword "stop" and a null transcript snippet. *)
Lemma stored_session_holds_no_transcript_witness :
  let env := mkEnv 1000 "id-1" false false false in
  let w := step env ClickStart (init true true (Some "keyword") "stop" emptyStorage) in
  let w' := handleStop env voice_keyword "please stop the timer" w in
  exists session,
    nth_error (loadHistory (storage w')) 0 = Some session /\
    field "transcriptSnippet" session = Some JNull /\
    field "keyword" session = Some (JStr "stop").
Proof.
  intros env w w'.
  assert (Hr : Reachable w) by (apply reach_step, reach_init).
  destruct (stored_session_holds_no_transcript env voice_keyword
              "please stop the timer" w Hr eq_refl)
    as ((session & _ & Hhead & Hsnip & _ & _ & Hkw) & _).
  exists session. split; [| split].
  - apply Hhead. split; reflexivity.
  - exact Hsnip.
  - exact Hkw.
Defined.

End StoredSession.

(** ** Recorded durations on the page *)

Section PageHistory.

Import History App.

Lemma Forall_firstn {A : Type} (P : A -> Prop) (n : nat) (l : list A) :
  Forall P l -> Forall P (firstn n l).
Proof.
  revert l. induction n as [| n IH]; intros l H; [constructor |].
  destruct H as [| x l Hx Hl]; [constructor |].
  simpl. constructor; [exact Hx | now apply IH].
Qed.

Lemma pushSessionToHistory_Forall (P : Json -> Prop) (session : Json) (ls : LocalStorage) :
  P session -> Forall P (loadHistory ls) ->
  Forall P (loadHistory (pushSessionToHistory session ls)).
Proof.
  intros Hs Hl. rewrite pushSessionToHistory_cases.
  destruct (setItemThrows ls); [exact Hl |].
  rewrite (loadHistory_cases (mkStorage _ _ _)). cbn [getItemThrows item].
  destruct (getItemThrows ls); [constructor |].
  apply Forall_firstn, Forall_firstn. now constructor.
Qed.

Lemma buildSession_duration (env : Env) (reason : StopReason) (started ended d : Z)
    (w : World) :
  durationOf (buildSession env reason started ended d w) = Some d.
Proof. reflexivity. Qed.

Lemma handleStop_history (env : Env) (reason : StopReason) (t : string) (w : World) :
  Forall NonNegDuration (loadHistory (storage w)) ->
  Forall NonNegDuration (loadHistory (storage (handleStop env reason t w))).
Proof.
  intros H.
  destruct (status w) eqn:Hs;
    try (rewrite handleStop_noop; [exact H | left; rewrite Hs; discriminate]).
  destruct (startedAtMs w) as [started |] eqn:Ha;
    [| rewrite handleStop_noop; [exact H | now right]].
  destruct (handleStop_effect env reason t w started Hs Ha)
    as (_ & _ & _ & _ & _ & _ & H7).
  rewrite H7. apply pushSessionToHistory_Forall; [| exact H].
  eexists. split; [apply buildSession_duration |].
  unfold Js.clampNonNeg. lia.
Qed.

Lemma step_history (env : Env) (ev : Event) (w : World) :
  Forall NonNegDuration (loadHistory (storage w)) ->
  Forall NonNegDuration (loadHistory (storage (step env ev w))).
Proof.
  intros H.
  assert (Hsame : forall w', sameTimer w' w ->
             Forall NonNegDuration (loadHistory (storage w'))).
  { intros w' (_ & _ & _ & _ & E). now rewrite E. }
  destruct ev; cbn [step]; try exact H.
  - destruct (status w) eqn:Hs;
      try (destruct (handleStart_not_running env w) as (_ & _ & _ & _ & E);
           [rewrite Hs; discriminate | now rewrite E]).
    now rewrite handleStart_running.
  - now apply handleStop_history.
  - destruct (handleReset_effect env w) as (_ & _ & _ & _ & _ & _ & E). now rewrite E.
  - destruct (simulateClick_cases env w) as [-> | (reason & ->)];
      [exact H | now apply handleStop_history].
  - apply Hsame, voiceEnabledChange_sameTimer.
  - destruct (recognition w); exact H.
  - apply Hsame, fireEnd_sameTimer.
  - destruct (recognition w); [| exact H]. unfold onresult.
    destruct (Js.isEmpty _); [exact H |].
    destruct (maybeVoiceStop_cases env (Js.trim (String.concat "" parts))
                (set_lastTranscript (Js.trim (String.concat "" parts)) w))
      as [-> | (reason & ->)]; [exact H | now apply handleStop_history].
  - apply Hsame, stopRecognition_sameTimer.
Qed.

Lemma run_history (trace : list (Env * Event)) (w : World) :
  Forall NonNegDuration (loadHistory (storage w)) ->
  Forall NonNegDuration (loadHistory (storage (run trace w))).
Proof.
  revert w. induction trace as [| [env ev] rest IH]; intros w H; [exact H |].
  simpl. apply IH. now apply step_history.
Qed.

End PageHistory.

(** ** The bot's record *)

Section BotRecord.

Import Bot.

Lemma blank_coherent (f : File) : blank f -> Coherent (current f).
Proof. intros [-> | ->]; unfold Coherent; cbn; repeat split. Qed.

Lemma timerStart_running (env : Env) (f : File) :
  status (current f) = running -> timerStart env f = (f, ReplyAlreadyRunning).
Proof.
  intros Hs. unfold timerStart. unfold current in Hs. now rewrite Hs.
Qed.

Lemma execute_coherent (env : Env) (cmd : Command) (f : File) :
  Coherent (current f) -> Coherent (current (fst (execute env cmd f))).
Proof.
  intros Hc. unfold current, getTimerState in *.
  destruct cmd; cbn [execute].
  - unfold timerStart, getTimerState, updateTimerState, saveTimerState.
    destruct (status (loadTimerState f)) eqn:Hs; cbn [fst]; try exact Hc;
      destruct (writeThrows env); try exact Hc;
      unfold Coherent; cbn; repeat split; discriminate.
  - unfold timerStop, getTimerState, updateTimerState, saveTimerState.
    destruct (status (loadTimerState f)) eqn:Hs; cbn [fst]; try exact Hc.
    destruct (writeThrows env); try exact Hc.
    unfold Coherent in *. rewrite Hs in Hc. destruct Hc as (Ha & _).
    cbn. repeat split; try discriminate; try exact Ha.
    eexists. split; [reflexivity |]. unfold Js.clampNonNeg. lia.
  - unfold timerReset, updateTimerState, saveTimerState. cbn [fst].
    destruct (writeThrows env); try exact Hc.
    unfold Coherent; cbn; repeat split.
  - exact Hc.
Qed.

Lemma run_coherent (trace : list (Env * Command)) (f : File) :
  Coherent (current f) -> Coherent (current (run trace f)).
Proof.
  revert f. induction trace as [| [env cmd] rest IH]; intros f Hc; [exact Hc |].
  simpl. apply IH. now apply execute_coherent.
Qed.

End BotRecord.

(** ** Invariants of the session record, page and bot together *)

Section SessionRecord.

Import History.

(** C5 fails as stated: in the record the bot reads and writes, [durationMs]
    is the number 0, not null, while the status is idle (the default record)
    and while it is running (after [/timer-start]). *)
Lemma bot_durationMs_set_while_idle_and_running :
  let st0 := Bot.current Bot.FileAbsent in
  let st1 := Bot.current (Bot.run [(Bot.mkEnv 1000 false, Bot.TimerStart)] Bot.FileAbsent) in
  (Bot.status st0 = idle /\ Bot.durationMs st0 = Some 0%Z) /\
  (Bot.status st1 = running /\ Bot.durationMs st1 = Some 0%Z) /\
  ~ (Bot.durationMs st1 <> None <->
     Bot.status st1 = stopped \/ Bot.status st1 = finished).
Proof.
  intros st0 st1. split; [split; reflexivity |]. split; [split; reflexivity |].
  intros [H _]. destruct H as [H | H]; [discriminate | discriminate H | discriminate H].
Qed.

(** C5, as the code has it. On the page, in every world reachable by its
    events, [endedAtMs] is set exactly when the status is stopped (finished
    never occurs there). In the bot's record, after any sequence of commands
    on a store that held no record, [endedAt] is set exactly when the status
    is stopped, and [durationMs] is never null: it is 0 while the status is
    idle or running. *)
Theorem endedAt_set_iff_stopped_duration_zero_before
    (w : App.World) (f : Bot.File) (trace : list (Bot.Env * Bot.Command)) :
  App.Reachable w -> Bot.blank f ->
  let st := Bot.current (Bot.run trace f) in
  (App.endedAtMs w <> None <-> App.status w = stopped \/ App.status w = finished) /\
  (Bot.endedAt st <> None <-> Bot.status st = stopped \/ Bot.status st = finished) /\
  Bot.durationMs st <> None /\
  (Bot.status st = idle \/ Bot.status st = running -> Bot.durationMs st = Some 0%Z).
Proof.
  intros Hr Hb st.
  pose proof (reachable_coherent w Hr) as Hw.
  pose proof (run_coherent trace f (blank_coherent f Hb)) as Hst. fold st in Hst.
  unfold App.Coherent in Hw. unfold Bot.Coherent in Hst.
  split; [| split; [| split]].
  - destruct (App.status w); try contradiction;
      destruct Hw as (_ & He & _); split;
      try (intros [E | E]; discriminate E); try (intros N; now elim N);
      try (intros _; now left); try (intros _; exact He).
  - destruct (Bot.status st); try contradiction;
      destruct Hst as (_ & He & _); split;
      try (intros [E | E]; discriminate E); try (intros N; now elim N);
      try (intros _; now left); try (intros _; exact He).
  - destruct (Bot.status st); try contradiction.
    + destruct Hst as (_ & _ & Hd & _). rewrite Hd. discriminate.
    + destruct Hst as (_ & _ & Hd & _). rewrite Hd. discriminate.
    + destruct Hst as (_ & _ & (d & Hd & _) & _). rewrite Hd. discriminate.
  - destruct (Bot.status st); try contradiction.
    + intros _. apply Hst.
    + intros _. apply Hst.
    + intros [E | E]; discriminate E.
Qed.

(** The page after start and stop, the bot's record after start, stop, reset. *)
Lemma endedAt_set_iff_stopped_duration_zero_before_witness :
  let envA := App.mkEnv 1000 "id-1" false false false in
  let w := App.run [(envA, App.ClickStart); (envA, App.ClickStop)]
             (App.init true false None "" emptyStorage) in
  let envB := Bot.mkEnv 1000 false in
  let st := Bot.current
              (Bot.run [(envB, Bot.TimerStart); (envB, Bot.TimerStop); (envB, Bot.TimerReset)]
                 Bot.FileAbsent) in
  App.endedAtMs w <> None /\ Bot.durationMs st = Some 0%Z.
Proof.
  intros envA w envB st.
  assert (Hr : App.Reachable w) by (do 2 apply App.reach_step; apply App.reach_init).
  destruct (endedAt_set_iff_stopped_duration_zero_before w Bot.FileAbsent
              [(envB, Bot.TimerStart); (envB, Bot.TimerStop); (envB, Bot.TimerReset)]
              Hr (or_introl eq_refl))
    as (Hended & _ & _ & Hzero).
  split.
  - apply Hended. left. reflexivity.
  - apply Hzero. left. reflexivity.
Defined.

(** C6. Start while running changes nothing: on the page [handleStart]
    returns the world as it is, so a second start leaves [startedAtMs] (and
    status, [endedAtMs], [stopReason]) at the values of the first; in the bot
    [/timer-start] on a running record answers "already running" and leaves
    the file as it is, so after a first start that was written a second start
    keeps its [startedAt]. *)
Theorem start_while_running_is_noop
    (envA envA' : App.Env) (w : App.World) (envB envB' : Bot.Env) (f : Bot.File) :
  (App.status w = running -> App.handleStart envA w = w) /\
  App.handleStart envA' (App.handleStart envA w) = App.handleStart envA w /\
  (Bot.status (Bot.current f) = running ->
     Bot.timerStart envB f = (f, Bot.ReplyAlreadyRunning)) /\
  (Bot.writeThrows envB = false ->
     Bot.timerStart envB' (fst (Bot.timerStart envB f))
     = (fst (Bot.timerStart envB f), Bot.ReplyAlreadyRunning)).
Proof.
  split; [apply handleStart_running |].
  split; [apply handleStart_running, handleStart_status |].
  split; [apply timerStart_running |].
  intros Hw. apply timerStart_running.
  unfold Bot.timerStart, Bot.current, Bot.getTimerState.
  destruct (Bot.status (Bot.loadTimerState f)) eqn:Hs; cbn [fst]; try exact Hs;
    unfold Bot.updateTimerState, Bot.saveTimerState; rewrite Hw; reflexivity.
Qed.

(** start(); start() on the page at 1000 then 2000, and in the bot. *)
Lemma start_while_running_is_noop_witness :
  let envA := App.mkEnv 1000 "id-1" false false false in
  let envA' := App.mkEnv 2000 "id-2" false false false in
  let w := App.init true true None "" emptyStorage in
  let envB := Bot.mkEnv 1000 false in
  let envB' := Bot.mkEnv 2000 false in
  App.startedAtMs (App.handleStart envA' (App.handleStart envA w)) = Some 1000%Z /\
  Bot.startedAt (Bot.current (fst (Bot.timerStart envB' (fst (Bot.timerStart envB Bot.FileAbsent)))))
    = Some 1000%Z.
Proof.
  intros envA envA' w envB envB'.
  destruct (start_while_running_is_noop envA envA' w envB envB' Bot.FileAbsent)
    as (_ & Hpage & _ & Hbot).
  split.
  - rewrite Hpage. reflexivity.
  - rewrite Hbot by reflexivity. reflexivity.
Defined.

(** C7. Recorded durations are never negative. In the bot's record, after any
    sequence of commands on a store that held no record, [durationMs] is a
    number at or above zero whenever the status is stopped or finished. On the
    page every event keeps all stored sessions at a non-negative [durationMs],
    and a stop records [max 0 (end - start)], which is 0 when the clock went
    backwards between start and stop. *)
Theorem recorded_duration_never_negative
    (f : Bot.File) (traceB : list (Bot.Env * Bot.Command))
    (w : App.World) (traceA : list (App.Env * App.Event))
    (env : App.Env) (reason : StopReason) (transcript : string) :
  Bot.blank f ->
  Forall App.NonNegDuration (loadHistory (App.storage w)) ->
  let st := Bot.current (Bot.run traceB f) in
  (Bot.status st = stopped \/ Bot.status st = finished ->
     exists d, Bot.durationMs st = Some d /\ (0 <= d)%Z) /\
  Forall App.NonNegDuration (loadHistory (App.storage (App.run traceA w))) /\
  (forall started,
     App.status w = running -> App.startedAtMs w = Some started ->
     usable (App.storage w) ->
     exists session,
       nth_error (loadHistory (App.storage (App.handleStop env reason transcript w))) 0
         = Some session /\
       App.durationOf session = Some (Z.max 0 (App.now env - started)) /\
       ((App.now env <= started)%Z -> App.durationOf session = Some 0%Z)).
Proof.
  intros Hb Hh st. split; [| split].
  - pose proof (run_coherent traceB f (blank_coherent f Hb)) as Hst. fold st in Hst.
    unfold Bot.Coherent in Hst.
    destruct (Bot.status st); try contradiction.
    + intros [E | E]; discriminate E.
    + intros [E | E]; discriminate E.
    + intros _. apply Hst.
  - now apply run_history.
  - intros started Hs Ha Hu.
    destruct (handleStop_effect env reason transcript w started Hs Ha)
      as (_ & _ & _ & _ & _ & _ & H7).
    eexists. split; [rewrite H7, loadHistory_push by exact Hu; reflexivity |].
    split; [reflexivity |].
    intros Hle. rewrite buildSession_duration. unfold Js.clampNonNeg.
    f_equal. lia.
Qed.

(** Started at 5000 and stopped at 3000, on the page and in the bot. *)
Lemma recorded_duration_never_negative_witness :
  let envB := Bot.mkEnv 5000 false in
  let envB' := Bot.mkEnv 3000 false in
  let st := Bot.current (Bot.run [(envB, Bot.TimerStart); (envB', Bot.TimerStop)] Bot.FileAbsent) in
  let envA := App.mkEnv 5000 "id-1" false false false in
  let envA' := App.mkEnv 3000 "id-2" false false false in
  let w := App.step envA App.ClickStart (App.init true false None "" emptyStorage) in
  (exists d, Bot.durationMs st = Some d /\ (0 <= d)%Z) /\
  (exists session,
     nth_error (loadHistory (App.storage (App.handleStop envA' manual "" w))) 0
       = Some session /\
     App.durationOf session = Some 0%Z).
Proof.
  intros envB envB' st envA envA' w.
  destruct (recorded_duration_never_negative Bot.FileAbsent
              [(envB, Bot.TimerStart); (envB', Bot.TimerStop)]
              w [] envA' manual "" (or_introl eq_refl) (Forall_nil _))
    as (Hbot & _ & Hpage).
  split.
  - apply Hbot. left. reflexivity.
  - destruct (Hpage 5000%Z) as (session & Hhead & _ & Hzero).
    + reflexivity.
    + reflexivity.
    + split; reflexivity.
    + exists session. split; [exact Hhead |]. apply Hzero. simpl. lia.
Defined.

End SessionRecord.

(** ** More on the page: guards, lifecycle and recorded sessions *)

Section PageLifecycle.

Import History App.

Lemma handleStop_settled (env : Env) (reason : StopReason) (t : string) (w : World) :
  handleStop env reason t w = w \/ status (handleStop env reason t w) = stopped.
Proof.
  destruct (status w) eqn:Hs;
    try (left; apply handleStop_noop; left; rewrite Hs; discriminate).
  destruct (startedAtMs w) as [started |] eqn:Ha;
    [| left; apply handleStop_noop; now right].
  right. apply (handleStop_effect env reason t w started Hs Ha).
Qed.

Lemma maybeVoiceStop_not_running (env : Env) (t : string) (w : World) :
  status w <> running -> maybeVoiceStop env t w = w.
Proof.
  intros Hs. unfold maybeVoiceStop. destruct (status w); try reflexivity. now elim Hs.
Qed.

Lemma simulateClick_not_running (env : Env) (w : World) :
  status w <> running -> simulateClick env w = w.
Proof.
  intros Hs. unfold simulateClick. destruct (status w); try reflexivity. now elim Hs.
Qed.

(** X1. After a stop or a reset, a further stop changes nothing, whether it comes
    from the stop button, from the live voice policy or from the simulate
    button: the first command to see the session running wins, no second
    session is stored, and a reset leaves the stored history alone. *)
Theorem stop_after_stop_or_reset_changes_nothing
    (env1 env2 : Env) (reason1 reason2 : StopReason) (t1 t2 : string) (w : World) :
  let stopped1 := handleStop env1 reason1 t1 w in
  let cleared := handleReset env1 w in
  handleStop env2 reason2 t2 stopped1 = stopped1 /\
  maybeVoiceStop env2 t2 stopped1 = stopped1 /\
  simulateClick env2 stopped1 = stopped1 /\
  handleStop env2 reason2 t2 cleared = cleared /\
  maybeVoiceStop env2 t2 cleared = cleared /\
  simulateClick env2 cleared = cleared /\
  storage cleared = storage w.
Proof.
  intros stopped1 cleared.
  assert (Hguard : forall w0, status w0 <> running \/ startedAtMs w0 = None ->
            handleStop env2 reason2 t2 w0 = w0 /\
            maybeVoiceStop env2 t2 w0 = w0 /\
            simulateClick env2 w0 = w0).
  { intros w0 Hg. split; [now apply handleStop_noop |]. split.
    - destruct (maybeVoiceStop_cases env2 t2 w0) as [E | (r & E)]; [exact E |].
      rewrite E. now apply handleStop_noop.
    - destruct (simulateClick_cases env2 w0) as [E | (r & E)]; [exact E |].
      rewrite E. now apply handleStop_noop. }
  assert (H1 : status stopped1 <> running \/ startedAtMs stopped1 = None).
  { subst stopped1. destruct (status w) eqn:Hs;
      try (rewrite handleStop_noop by (left; rewrite Hs; discriminate);
           left; rewrite Hs; discriminate).
    destruct (startedAtMs w) as [started |] eqn:Ha.
    - destruct (handleStop_effect env1 reason1 t1 w started Hs Ha) as (E & _).
      left. rewrite E. discriminate.
    - rewrite handleStop_noop by now right. now right. }
  destruct (handleReset_effect env1 w) as (E1 & _ & _ & _ & _ & _ & E7).
  fold cleared in E1, E7.
  assert (H2 : status cleared <> running \/ startedAtMs cleared = None)
    by (left; rewrite E1; discriminate).
  destruct (Hguard stopped1 H1) as (A1 & A2 & A3).
  destruct (Hguard cleared H2) as (B1 & B2 & B3).
  repeat split; assumption.
Qed.

(** X2. In every world the page can reach: the start instant is set exactly while
    the session is running or stopped, the stop reason exactly while it is
    stopped, and the status is never [finished]. *)
Theorem startedAt_and_stopReason_follow_status (w : World) :
  Reachable w ->
  (startedAtMs w <> None <-> status w = running \/ status w = stopped) /\
  (stopReason w <> None <-> status w = stopped) /\
  status w <> finished.
Proof.
  intros Hr. pose proof (reachable_coherent w Hr) as Hc. unfold Coherent in Hc.
  destruct (status w); try contradiction; destruct Hc as (Ha & _ & Hsr).
  - split; [| split]; [| | discriminate].
    + split; [intros N; now elim N | intros [E | E]; discriminate E].
    + split; [intros N; now elim N | discriminate].
  - split; [| split]; [| | discriminate].
    + split; [intros _; now left | intros _; exact Ha].
    + split; [intros N; now elim N | discriminate].
  - split; [| split]; [| | discriminate].
    + split; [intros _; now right | intros _; exact Ha].
    + split; [reflexivity | intros _; exact Hsr].
Qed.

Lemma startedAt_and_stopReason_follow_status_witness :
  let env := mkEnv 1000 "id-1" false false false in
  let w := run [(env, ClickStart); (env, ClickStop); (env, ClickReset)]
             (init true false None "" emptyStorage) in
  startedAtMs w = None /\ status w <> finished.
Proof.
  intros env w.
  assert (Hr : Reachable w) by (do 3 apply reach_step; apply reach_init).
  destruct (startedAt_and_stopReason_follow_status w Hr) as (_ & _ & Hf).
  split; [reflexivity | exact Hf].
Defined.


Lemma step_storage_cases (env : Env) (ev : Event) (w : World) :
  storage (step env ev w) = storage w \/
  (status w = running /\ status (step env ev w) = stopped /\
   exists reason started,
     startedAtMs w = Some started /\
     stopReason (step env ev w) = Some reason /\
     storage (step env ev w) =
       pushSessionToHistory
         (buildSession env reason started (now env)
            (Js.clampNonNeg (now env - started)) w) (storage w)).
Proof.
  assert (Hstop : forall reason t w0,
             sameTimer w0 w -> voiceEnabled w0 = voiceEnabled w ->
             voiceModeChecked w0 = voiceModeChecked w ->
             keywordInput w0 = keywordInput w ->
             storage (handleStop env reason t w0) = storage w \/
             (status w = running /\ status (handleStop env reason t w0) = stopped /\
              exists reason' started,
                startedAtMs w = Some started /\
                stopReason (handleStop env reason t w0) = Some reason' /\
                storage (handleStop env reason t w0) =
                  pushSessionToHistory
                    (buildSession env reason' started (now env)
                       (Js.clampNonNeg (now env - started)) w) (storage w))).
  { intros reason t w0 (S1 & S2 & _ & _ & S5) V1 V2 V3.
    destruct (status w0) eqn:Hs;
      try (rewrite handleStop_noop by (left; rewrite Hs; discriminate); now left).
    destruct (startedAtMs w0) as [started |] eqn:Ha;
      [| rewrite handleStop_noop by (now right); now left].
    destruct (handleStop_effect env reason t w0 started Hs Ha)
      as (E1 & _ & _ & E4 & _ & _ & E7).
    right. split; [congruence |]. split; [exact E1 |].
    exists reason, started. split; [congruence |]. split; [exact E4 |].
    rewrite E7, S5. f_equal. unfold buildSession, getVoiceMode, getKeyword.
    now rewrite V1, V2, V3. }
  destruct ev; cbn [step]; try (now left).
  - left. destruct (status w) eqn:Hs;
      try (apply handleStart_not_running; rewrite Hs; discriminate).
    now rewrite handleStart_running.
  - apply Hstop; try reflexivity. apply sameTimer_refl.
  - left. apply handleReset_effect.
  - destruct (simulateClick_cases env w) as [-> | (reason & ->)]; [now left |].
    apply Hstop; try reflexivity. apply sameTimer_refl.
  - left. apply voiceEnabledChange_sameTimer.
  - destruct (recognition w); now left.
  - left. apply fireEnd_sameTimer.
  - destruct (recognition w); [| now left]. unfold onresult.
    destruct (Js.isEmpty _); [now left |].
    destruct (maybeVoiceStop_cases env (Js.trim (String.concat "" parts))
                (set_lastTranscript (Js.trim (String.concat "" parts)) w))
      as [-> | (reason & ->)]; [now left |].
    apply Hstop; try reflexivity. repeat split.
  - left. apply stopRecognition_sameTimer.
Qed.

(** X3. The stored history changes only when an event takes a running session to
    stopped, and then by exactly one session put in front (the oldest entry
    falls off a full history): start, reset and voice settings never write
    it, and stored sessions are never rewritten. *)
Theorem history_grows_only_by_one_stop (env : Env) (ev : Event) (w : World) :
  usable (storage w) ->
  loadHistory (storage (step env ev w)) = loadHistory (storage w) \/
  (status w = running /\ status (step env ev w) = stopped /\
   exists session,
     loadHistory (storage (step env ev w))
     = firstn HISTORY_LIMIT (session :: loadHistory (storage w))).
Proof.
  intros Hu. destruct (step_storage_cases env ev w)
    as [E | (Hs & Hs' & reason & started & _ & _ & E)].
  - left. now rewrite E.
  - right. split; [exact Hs |]. split; [exact Hs' |].
    eexists. rewrite E. now apply loadHistory_push.
Qed.

Lemma history_grows_only_by_one_stop_witness :
  let env := mkEnv 1000 "id-1" false false false in
  let w := step env ClickStart (init true false None "" emptyStorage) in
  loadHistory (storage (step env ClickReset w)) = [] /\
  List.length (loadHistory (storage (step env ClickStop w))) = 1%nat.
Proof.
  intros env w. split.
  - destruct (history_grows_only_by_one_stop env ClickReset w) as [E | (_ & E & _)].
    + split; reflexivity.
    + exact E.
    + discriminate E.
  - destruct (history_grows_only_by_one_stop env ClickStop w) as [E | (_ & _ & s & E)].
    + split; reflexivity.
    + reflexivity.
    + rewrite E. reflexivity.
Defined.

End PageLifecycle.

Section PagePolicy.

Import History App.

(** X4. A start from idle or stopped followed by a stop records exactly that run:
    the world and the session put at the head of the history carry the start
    instant of the start click, the end instant of the stop click, their
    clamped difference and the reason [manual]; a reset then clears the timer
    variables and leaves the history as it is. *)
Theorem start_stop_reset_records_one_run (env1 env2 env3 : Env) (w : World) :
  status w <> running -> usable (storage w) ->
  let w1 := step env1 ClickStart w in
  let w2 := step env2 ClickStop w1 in
  let w3 := step env3 ClickReset w2 in
  (status w2 = stopped /\ startedAtMs w2 = Some (now env1) /\
   endedAtMs w2 = Some (now env2) /\ stopReason w2 = Some manual) /\
  (exists session older,
     loadHistory (storage w2) = session :: older /\
     older = firstn 9 (loadHistory (storage w)) /\
     field "id" session = Some (JStr (uuid env2)) /\
     field "startedAt" session = Some (JIso (now env1)) /\
     field "endedAt" session = Some (JIso (now env2)) /\
     field "durationMs" session = Some (JNum (Z.max 0 (now env2 - now env1))) /\
     field "stopReason" session = Some (JStr "manual")) /\
  (status w3 = idle /\ startedAtMs w3 = None /\ endedAtMs w3 = None /\
   stopReason w3 = None /\ storage w3 = storage w2).
Proof.
  intros Hs Hu w1 w2 w3.
  destruct (handleStart_not_running env1 w Hs) as (A1 & A2 & _ & _ & A5).
  change (handleStart env1 w) with w1 in A1, A2, A5.
  destruct (handleStop_effect env2 manual "" w1 (now env1) A1 A2)
    as (B1 & B2 & B3 & B4 & _ & _ & B7).
  change (handleStop env2 manual "" w1) with w2 in B1, B2, B3, B4, B7.
  split; [repeat split; assumption |]. split.
  - eexists. eexists. split.
    + rewrite B7, loadHistory_push by (rewrite A5; exact Hu).
      rewrite A5. reflexivity.
    + repeat split; reflexivity.
  - destruct (handleReset_effect env3 w2) as (C1 & C2 & C3 & C4 & _ & _ & C7).
    repeat split; assumption.
Qed.

Lemma start_stop_reset_records_one_run_witness :
  let env1 := mkEnv 1000 "id-1" false false false in
  let env2 := mkEnv 4500 "id-2" false false false in
  let w := init true false None "" emptyStorage in
  exists session,
    loadHistory (storage (step env2 ClickStop (step env1 ClickStart w))) = [session] /\
    field "durationMs" session = Some (JNum 3500).
Proof.
  intros env1 env2 w.
  destruct (start_stop_reset_records_one_run env1 env2 env2 w)
    as (_ & (session & older & H1 & H2 & _ & _ & _ & H6 & _) & _).
  - discriminate.
  - split; reflexivity.
  - exists session. split; [rewrite H1, H2; reflexivity | exact H6].
Defined.

(** X5. Outside keyword mode the live policy is all or nothing: with voice
    enabled and mode [any] every utterance stops a running session with
    reason [voice_any]; with voice disabled, or when the session is not
    running, every utterance is ignored. *)
Theorem any_mode_stops_on_every_utterance (env : Env) (utterance : string) (w : World) :
  Reachable w ->
  (status w = running -> voiceEnabled w = true -> getVoiceMode w = any ->
     status (maybeVoiceStop env utterance w) = stopped /\
     stopReason (maybeVoiceStop env utterance w) = Some voice_any /\
     endedAtMs (maybeVoiceStop env utterance w) = Some (now env)) /\
  (status w <> running \/ voiceEnabled w = false ->
     maybeVoiceStop env utterance w = w).
Proof.
  intros Hr. split.
  - intros Hs Hv Hm. destruct (running_started w Hr Hs) as (started & Ha).
    unfold maybeVoiceStop. rewrite Hs, Hv, Hm. cbn [negb].
    destruct (handleStop_effect env voice_any utterance w started Hs Ha)
      as (H1 & _ & H3 & H4 & _).
    repeat split; assumption.
  - intros [Hs | Hv]; [now apply maybeVoiceStop_not_running |].
    unfold maybeVoiceStop. rewrite Hv. destruct (status w); reflexivity.
Qed.

Lemma any_mode_stops_on_every_utterance_witness :
  let env := mkEnv 1000 "id-1" false false false in
  let w := step env ClickStart (init true true (Some "any") "" emptyStorage) in
  stopReason (maybeVoiceStop env "anything at all" w) = Some voice_any.
Proof.
  intros env w.
  assert (Hr : Reachable w) by (apply reach_step, reach_init).
  destruct (any_mode_stops_on_every_utterance env "anything at all" w Hr) as (H & _).
  apply H; reflexivity.
Defined.

Lemma allWhiteSpace_app (a b : string) :
  Render.allWhiteSpace (String.append a b)
  = Render.allWhiteSpace a && Render.allWhiteSpace b.
Proof.
  induction a as [| c a IH]; simpl; [reflexivity |].
  rewrite IH. now rewrite andb_assoc.
Qed.

Lemma allWhiteSpace_concat (parts : list string) :
  forallb Render.allWhiteSpace parts = true ->
  Render.allWhiteSpace (String.concat "" parts) = true.
Proof.
  induction parts as [| p rest IH]; intros H; [reflexivity |].
  simpl in H. apply andb_true_iff in H as [Hp Hrest].
  destruct rest as [| q rest']; [exact Hp |].
  change (String.concat "" (p :: q :: rest'))
    with (String.append p (String.append "" (String.concat "" (q :: rest')))).
  rewrite allWhiteSpace_app, Hp. simpl String.append. now apply IH.
Qed.

Lemma trimStart_allWhiteSpace (s : string) :
  Render.allWhiteSpace s = true -> Js.trimStart s = "".
Proof.
  induction s as [| c s IH]; intros H; [reflexivity |].
  simpl in H. apply andb_true_iff in H as [Hc Hs]. simpl. rewrite Hc. now apply IH.
Qed.

Lemma trimEnd_nonempty (c : ascii) (s : string) :
  Js.isWhiteSpace c = false -> Js.trimEnd (String c s) <> "".
Proof.
  intros Hc. simpl. destruct (Js.trimEnd s); [rewrite Hc |]; discriminate.
Qed.

(** [trim] yields the empty string exactly on white space. *)
Lemma trim_empty_iff (s : string) :
  Js.trim s = "" <-> Render.allWhiteSpace s = true.
Proof.
  split.
  - unfold Js.trim. induction s as [| c s IH]; intros H; [reflexivity |].
    simpl in *. destruct (Js.isWhiteSpace c) eqn:Hc; [now apply IH |].
    exfalso. revert H. change (Js.trimEnd (String c s) <> ""). now apply trimEnd_nonempty.
  - intros H. unfold Js.trim. now rewrite trimStart_allWhiteSpace.
Qed.

(** X6. A recognition result whose text is empty or only white space is dropped:
    nothing changes, not even [lastTranscript], and the policy is not asked. *)
Theorem blank_results_are_dropped (env : Env) (parts : list string) (w : World) :
  forallb Render.allWhiteSpace parts = true ->
  onresult env parts w = w /\ step env (RecResult parts) w = w.
Proof.
  intros H.
  assert (E : onresult env parts w = w).
  { unfold onresult.
    rewrite (proj2 (trim_empty_iff _) (allWhiteSpace_concat parts H)). reflexivity. }
  split; [exact E |]. cbn [step]. destruct (recognition w); [exact E | reflexivity].
Qed.

Lemma blank_results_are_dropped_witness :
  let env := mkEnv 1000 "id-1" false false false in
  let w := run [(env, ClickStart); (env, RecStart)]
             (init true true (Some "any") "" emptyStorage) in
  status (step env (RecResult ["  "; ""; " "]) w) = running.
Proof.
  intros env w.
  destruct (blank_results_are_dropped env ["  "; ""; " "] w eq_refl) as (_ & E).
  rewrite E. reflexivity.
Defined.

(** X7. The live policy reads the utterance only through its lower-cased form:
    two utterances that differ in letter case lead to the same world. *)
Theorem utterance_case_does_not_matter (env : Env) (heard heard' : string) (w : World) :
  Js.toLowerCase heard = Js.toLowerCase heard' ->
  maybeVoiceStop env heard w = maybeVoiceStop env heard' w.
Proof.
  intros H. unfold maybeVoiceStop. rewrite H. reflexivity.
Qed.

Lemma utterance_case_does_not_matter_witness :
  let env := mkEnv 1000 "id-1" false false false in
  let w := step env ClickStart (init true true (Some "keyword") "Stop" emptyStorage) in
  maybeVoiceStop env "PLEASE STOP" w = maybeVoiceStop env "please stop" w.
Proof.
  intros env w. apply utterance_case_does_not_matter. reflexivity.
Defined.

(** X8. A keyword box that holds only white space configures no keyword: in
    keyword mode the live policy then ignores every utterance. *)
Theorem blank_keyword_never_stops (env : Env) (utterance : string) (w : World) :
  Render.allWhiteSpace (keywordInput w) = true -> getVoiceMode w = keyword ->
  getKeyword w = "" /\ maybeVoiceStop env utterance w = w.
Proof.
  intros Hk Hm.
  assert (E : getKeyword w = "") by (now apply trim_empty_iff).
  split; [exact E |].
  unfold maybeVoiceStop. rewrite Hm, E.
  destruct (status w); try reflexivity. destruct (negb (voiceEnabled w)); reflexivity.
Qed.

Lemma blank_keyword_never_stops_witness :
  let env := mkEnv 1000 "id-1" false false false in
  let w := step env ClickStart (init true true (Some "keyword") "   " emptyStorage) in
  status (maybeVoiceStop env "stop" w) = running.
Proof.
  intros env w.
  destruct (blank_keyword_never_stops env "stop" w eq_refl eq_refl) as (_ & E).
  rewrite E. reflexivity.
Defined.

(** X9. The simulate button stops every running session, whatever the voice
    settings: with reason [voice_any] in mode [any] and [voice_keyword] in
    keyword mode, where the simulated transcript is the keyword itself or
    "stop". *)
Theorem simulate_always_stops_a_running_session (env : Env) (w : World) :
  Reachable w -> status w = running ->
  status (simulateClick env w) = stopped /\
  stopReason (simulateClick env w)
    = Some (match getVoiceMode w with any => voice_any | keyword => voice_keyword end) /\
  endedAtMs (simulateClick env w) = Some (now env).
Proof.
  intros Hr Hs. destruct (running_started w Hr Hs) as (started & Ha).
  unfold simulateClick, simulatedTranscript. rewrite Hs.
  destruct (getVoiceMode w).
  - destruct (handleStop_effect env voice_any "hello" w started Hs Ha)
      as (H1 & _ & H3 & H4 & _).
    repeat split; assumption.
  - rewrite includes_refl.
    destruct (handleStop_effect env voice_keyword
                (Js.orElse (getKeyword w) "stop") w started Hs Ha)
      as (H1 & _ & H3 & H4 & _).
    repeat split; assumption.
Qed.

Lemma simulate_always_stops_a_running_session_witness :
  let env := mkEnv 1000 "id-1" false false false in
  let w := step env ClickStart (init false false (Some "keyword") "" emptyStorage) in
  status (simulateClick env w) = stopped.
Proof.
  intros env w.
  apply (simulate_always_stops_a_running_session env w).
  - apply reach_step, reach_init.
  - reflexivity.
Defined.

End PagePolicy.

Section PageRecognizer.

Import History App.

Ltac world_fields w :=
  destruct w as [st sa ea sr sup rec rs lt ve vm ki sto calls].

Lemma startCalls_snoc_start (w : World) (calls : list RecCall) :
  startCalls (set_recCalls (calls ++ [CallStart]) w) = S (startCalls (set_recCalls calls w)).
Proof.
  unfold startCalls. cbn. rewrite filter_app, length_app. simpl. lia.
Qed.

(** What one call of [startRecognition] does to the trace of calls. *)
Lemma startRecognition_calls (env : Env) (w : World) :
  let w' := startRecognition env w in
  status w' = status w /\ voiceEnabled w' = voiceEnabled w /\
  speechSupported w' = speechSupported w /\
  (recCalls w' = recCalls w \/
   (recCalls w' = recCalls w ++ [CallStart] /\ recognitionStarting w = false /\
    status w = running /\ voiceEnabled w = true /\ speechSupported w = true /\
    recognition w' = Some {| onendSet := match recognition w with
                                         | Some r => onendSet r
                                         | None => true
                                         end |} /\
    recognitionStarting w' = negb (startThrows env))).
Proof.
  world_fields w. unfold startRecognition, ensureRecognition. cbn.
  destruct sup, ve, st, rs, rec as [[o] |], (startThrows env); cbn;
    repeat split; auto; right; repeat split; reflexivity.
Qed.

Lemma stopRecognition_config (env : Env) (w : World) :
  let w' := stopRecognition env w in
  status w' = status w /\ voiceEnabled w' = voiceEnabled w /\
  speechSupported w' = speechSupported w /\
  recCalls w' = recCalls w ++ match recognition w with Some _ => [CallStop] | None => [] end /\
  recognition w' = match recognition w with
                   | Some _ => Some {| onendSet := true |}
                   | None => None
                   end.
Proof.
  rewrite stopRecognition_cases. world_fields w. cbn.
  destruct rec; cbn; repeat split; try reflexivity. now rewrite app_nil_r.
Qed.

(** X10. Where recognition is unsupported the page never creates a recognizer and
    never calls one, whatever the user does, the voice box included; the voice
    box starts unchecked. *)
Theorem unsupported_page_never_touches_recognizer
    (trace : list (Env * Event)) (checked : bool) (mode : option string) (kw : string)
    (ls : LocalStorage) :
  let w0 := init false checked mode kw ls in
  let w := run trace w0 in
  voiceEnabled w0 = false /\
  speechSupported w = false /\ recognition w = None /\ recCalls w = [].
Proof.
  intros w0 w. split; [reflexivity |].
  assert (Hstep : forall env ev x,
             speechSupported x = false /\ recognition x = None /\ recCalls x = [] ->
             speechSupported (step env ev x) = false /\
             recognition (step env ev x) = None /\ recCalls (step env ev x) = []).
  { intros env ev x (H1 & H2 & H3).
    assert (Hsr : forall y, speechSupported y = false -> startRecognition env y = y).
    { intros y Hy. unfold startRecognition. now rewrite Hy. }
    assert (Hst : forall y, recognition y = None ->
                   stopRecognition env y = set_recognitionStarting false y).
    { intros y Hy. rewrite stopRecognition_cases. now rewrite Hy. }
    assert (Hhs : forall reason t y,
               speechSupported y = false /\ recognition y = None /\ recCalls y = [] ->
               speechSupported (handleStop env reason t y) = false /\
               recognition (handleStop env reason t y) = None /\
               recCalls (handleStop env reason t y) = []).
    { intros reason t y (Y1 & Y2 & Y3). unfold handleStop.
      destruct (status y); auto. destruct (startedAtMs y); auto.
      rewrite Hst by exact Y2. cbn. auto. }
    destruct ev; cbn [step]; auto.
    - unfold handleStart. destruct (status x); auto;
        rewrite Hst by exact H2; rewrite Hsr by exact H1; cbn; auto.
    - unfold handleReset. rewrite Hst by exact H2. cbn. auto.
    - destruct (simulateClick_cases env x) as [-> | (r & ->)]; auto.
    - unfold voiceEnabledChange. cbv zeta.
      rewrite (Hsr (set_voiceEnabled checked0 x)) by exact H1.
      destruct (status (set_voiceEnabled checked0 x)), checked0; cbn;
        try rewrite Hst by exact H2; cbn; auto.
    - rewrite H2. auto.
    - unfold fireEnd. rewrite H2. auto.
    - rewrite H2. auto.
    - rewrite Hst by exact H2. cbn. auto. }
  subst w. assert (H0 : speechSupported w0 = false /\ recognition w0 = None /\ recCalls w0 = [])
    by (repeat split; reflexivity).
  clearbody w0. revert w0 H0.
  induction trace as [| [env ev] rest IH]; intros x Hx; [exact Hx |].
  simpl. apply IH. now apply Hstep.
Qed.

(** X11. [start()] is called on the recognizer at most once per event, and only by
    an event that leaves the session running with voice enabled and
    recognition supported. *)
Theorem recognizer_started_only_in_a_live_run (env : Env) (ev : Event) (w : World) :
  let w' := step env ev w in
  startCalls w' = startCalls w \/
  (startCalls w' = S (startCalls w) /\
   status w' = running /\ voiceEnabled w' = true /\ speechSupported w' = true).
Proof.
  assert (Hsr : forall y,
             startCalls (startRecognition env y) = startCalls y \/
             (startCalls (startRecognition env y) = S (startCalls y) /\
              status (startRecognition env y) = running /\
              voiceEnabled (startRecognition env y) = true /\
              speechSupported (startRecognition env y) = true)).
  { intros y. destruct (startRecognition_calls env y)
      as (A1 & A2 & A3 & [E | (E & _ & B1 & B2 & B3 & _)]).
    - left. unfold startCalls. now rewrite E.
    - right. split; [| repeat split; congruence].
      unfold startCalls. rewrite E, filter_app, length_app. simpl. lia. }
  assert (Hhs : forall reason t y,
             startCalls (handleStop env reason t y) = startCalls y).
  { intros reason t y.
    destruct (status y) eqn:Hs;
      try (rewrite handleStop_noop by (left; rewrite Hs; discriminate); reflexivity).
    destruct (startedAtMs y) as [started |] eqn:Ha;
      [| rewrite handleStop_noop by (now right); reflexivity].
    apply (handleStop_effect env reason t y started Hs Ha). }
  intros w'. subst w'. destruct ev; cbn [step]; try (left; reflexivity).
  - unfold handleStart. destruct (status w) eqn:Hs; try (now left);
      match goal with |- context [startRecognition env ?y] =>
        destruct (Hsr y) as [E | (E & B)];
        [left | right; split; [| exact B]]; rewrite E;
        unfold startCalls; cbn; fold (startCalls (stopRecognition env w));
        now rewrite stopRecognition_startCalls
      end.
  - left. apply Hhs.
  - left. apply handleReset_effect.
  - left. destruct (simulateClick_cases env w) as [-> | (r & ->)]; [reflexivity | apply Hhs].
  - unfold voiceEnabledChange. cbv zeta. destruct checked.
    + destruct (status (set_voiceEnabled true w)) eqn:Hs; cbn [voiceEnabled set_voiceEnabled negb];
        try (now left).
      destruct (startRecognition_calls env (set_voiceEnabled true w)) as (_ & A2 & _).
      cbv zeta in A2. rewrite A2. cbn [voiceEnabled set_voiceEnabled negb].
      apply (Hsr (set_voiceEnabled true w)).
    + left. destruct (status (set_voiceEnabled false w)); cbn [voiceEnabled set_voiceEnabled negb];
        rewrite stopRecognition_startCalls; reflexivity.
  - destruct (recognition w); now left.
  - unfold fireEnd, onend. destruct (recognition w) as [[[|]] |]; try (now left).
    destruct (status w); try (now left).
    destruct (voiceEnabled w && speechSupported w); [apply Hsr | now left].
  - destruct (recognition w); [| now left]. left. unfold onresult.
    destruct (Js.isEmpty _); [reflexivity |].
    destruct (maybeVoiceStop_cases env (Js.trim (String.concat "" parts))
                (set_lastTranscript (Js.trim (String.concat "" parts)) w))
      as [-> | (reason & ->)]; [reflexivity | rewrite Hhs; reflexivity].
  - left. apply stopRecognition_startCalls.
Qed.

End PageRecognizer.

Section PageArming.

Import History App.

(** X12. Unchecking the voice box disarms: [stop()] is called on the recognizer if
    there is one and no [start()]; no start is left pending; the end event
    that follows restarts nothing and utterances are ignored, while the
    session itself goes on as before. *)
Theorem disabling_voice_disarms (env env' : Env) (utterance : string) (w : World) :
  let w' := voiceEnabledChange env false w in
  voiceEnabled w' = false /\
  recognitionStarting w' = false /\
  recCalls w' = recCalls w ++ match recognition w with Some _ => [CallStop] | None => [] end /\
  fireEnd env' w' = w' /\
  maybeVoiceStop env' utterance w' = w' /\
  sameTimer w' w.
Proof.
  intros w'.
  assert (E : w' = stopRecognition env (set_voiceEnabled false w)).
  { subst w'. unfold voiceEnabledChange. cbv zeta.
    destruct (status (set_voiceEnabled false w)); reflexivity. }
  destruct (stopRecognition_config env (set_voiceEnabled false w))
    as (C1 & C2 & C3 & C4 & C5).
  rewrite <- E in C1, C2, C3, C4, C5.
  assert (Hv : voiceEnabled w' = false) by exact C2.
  split; [exact Hv |].
  split; [rewrite E; apply stopRecognition_settles |].
  split; [exact C4 |].
  split; [| split].
  - unfold fireEnd, onend. rewrite Hv.
    destruct (recognition w') as [[[|]] |]; try reflexivity.
    destruct (status w'); reflexivity.
  - unfold maybeVoiceStop. rewrite Hv. destruct (status w'); reflexivity.
  - subst w'. apply voiceEnabledChange_sameTimer.
Qed.

(** X13. A start from idle or stopped arms recognition when voice is enabled and
    supported: a recognizer that already exists is stopped first, then
    [start()] is called once, the restart handler is in place and the start is
    pending unless [start()] raised. With voice disabled or unsupported no
    [start()] call is made. *)
Theorem start_arms_recognition_when_voice_is_on (env : Env) (w : World) :
  status w <> running ->
  let w' := handleStart env w in
  (voiceEnabled w = true -> speechSupported w = true ->
     recCalls w' = recCalls w
                   ++ match recognition w with Some _ => [CallStop] | None => [] end
                   ++ [CallStart] /\
     LiveRun w' /\
     recognitionStarting w' = negb (startThrows env)) /\
  (voiceEnabled w = false \/ speechSupported w = false ->
     startCalls w' = startCalls w /\ recognitionStarting w' = false).
Proof.
  intros Hs w'.
  destruct w as [st sa ea sr sup rec rs lt ve vm ki sto calls].
  cbn in Hs. subst w'. unfold handleStart. rewrite stopRecognition_cases.
  unfold startRecognition, ensureRecognition, LiveRun, startCalls. cbn.
  split.
  - intros -> ->.
    destruct st; try (now elim Hs); destruct rec as [[o] |], (startThrows env); cbn;
      rewrite <- ?app_assoc; repeat split; reflexivity.
  - intros [-> | ->];
      destruct st; try (now elim Hs); destruct rec as [[o] |];
      try destruct sup; try destruct ve; cbn;
      rewrite ?filter_app, ?length_app; cbn; split; try reflexivity; lia.
Qed.

Lemma start_arms_recognition_when_voice_is_on_witness :
  let env := mkEnv 1000 "id-1" false false false in
  let w := init true true None "" emptyStorage in
  recCalls (handleStart env w) = [CallStart] /\ LiveRun (handleStart env w).
Proof.
  intros env w.
  destruct (start_arms_recognition_when_voice_is_on env w) as (H & _).
  - discriminate.
  - destruct H as (H1 & H2 & _); [reflexivity | reflexivity |].
    split; [exact H1 | exact H2].
Defined.

(** X14. The buttons that [updateControls] disables are exactly those whose click
    would change nothing: Start is disabled iff the session is running, that
    is iff [handleStart] is a no-op, and Stop is disabled iff the session is
    not running, that is iff the stop click is a no-op. The keyword box is
    editable exactly in keyword mode with voice enabled and supported. *)
Theorem disabled_buttons_are_the_noop_ones (env : Env) (w : World) :
  Reachable w ->
  let c := Render.updateControls w in
  (Render.startDisabled c = true <-> handleStart env w = w) /\
  (Render.stopDisabled c = true <-> step env ClickStop w = w) /\
  (Render.startDisabled c = negb (Render.stopDisabled c)) /\
  (Render.keywordDisabled c = false <->
     getVoiceMode w = keyword /\ voiceEnabled w = true /\ speechSupported w = true).
Proof.
  intros Hr c. subst c. unfold Render.updateControls. cbn.
  split; [| split; [| split]].
  - destruct (status w) eqn:Hs;
      (split;
       [try discriminate; intros _; now apply handleStart_running
       | intros E; try reflexivity;
         apply (f_equal status) in E; rewrite handleStart_status, Hs in E;
         discriminate E]).
  - cbn [step]. destruct (status w) eqn:Hs; cbn;
      (split;
       [try discriminate; intros _; apply handleStop_noop; left; rewrite Hs; discriminate
       | intros E; try reflexivity]).
    destruct (running_started w Hr Hs) as (started & Ha).
    destruct (handleStop_effect env manual "" w started Hs Ha) as (H1 & _).
    rewrite E, Hs in H1. discriminate H1.
  - destruct (status w); reflexivity.
  - destruct (getVoiceMode w), (voiceEnabled w), (speechSupported w); cbn;
      split; try discriminate; try (intros (? & ? & ?); discriminate); auto.
Qed.

Lemma disabled_buttons_are_the_noop_ones_witness :
  let env := mkEnv 1000 "id-1" false false false in
  let w := init true false None "" emptyStorage in
  step env ClickStop w = w /\ Render.startDisabled (Render.updateControls w) = false.
Proof.
  intros env w.
  destruct (disabled_buttons_are_the_noop_ones env w (reach_init _ _ _ _ _))
    as (_ & Hstop & _).
  split; [apply Hstop; reflexivity | reflexivity].
Defined.

End PageArming.

(** ** Rendering: escaping and formatting *)

Section Rendering.

Import Render.

Lemma string_append_assoc (a b c : string) :
  String.append (String.append a b) c = String.append a (String.append b c).
Proof. induction a as [| x a IH]; simpl; [reflexivity | now rewrite IH]. Qed.

Lemma string_length_append (a b : string) :
  String.length (String.append a b) = (String.length a + String.length b)%nat.
Proof. induction a as [| x a IH]; simpl; [reflexivity | now rewrite IH]. Qed.

Lemma replaceAll_app (p : ascii) (r a b : string) :
  replaceAll p r (String.append a b)
  = String.append (replaceAll p r a) (replaceAll p r b).
Proof.
  induction a as [| x a IH]; simpl; [reflexivity |].
  now rewrite IH, string_append_assoc.
Qed.

Lemma escapeHtml_cons (c : ascii) (s : string) :
  escapeHtml (String c s) = String.append (escapeChar c) (escapeHtml s).
Proof.
  unfold escapeHtml, escapeChar. cbn [replaceAll].
  rewrite !replaceAll_app.
  destruct (Ascii.eqb c "&") eqn:E1; [reflexivity |].
  cbn [replaceAll]. destruct (Ascii.eqb c "<") eqn:E2; [reflexivity |].
  cbn [replaceAll String.append]. destruct (Ascii.eqb c ">") eqn:E3; [reflexivity |].
  cbn [replaceAll String.append]. destruct (Ascii.eqb c dquote) eqn:E4; [reflexivity |].
  cbn [replaceAll String.append]. destruct (Ascii.eqb c "'") eqn:E5; reflexivity.
Qed.

Lemma escapeHtml_app (a b : string) :
  escapeHtml (String.append a b) = String.append (escapeHtml a) (escapeHtml b).
Proof.
  induction a as [| c a IH]; [reflexivity |].
  simpl String.append. rewrite !escapeHtml_cons, IH. now rewrite string_append_assoc.
Qed.

Lemma occurs_app (c : ascii) (a b : string) :
  occurs c (String.append a b) = occurs c a || occurs c b.
Proof.
  induction a as [| x a IH]; simpl; [reflexivity |]. now rewrite IH, orb_assoc.
Qed.

Lemma occurs_escapeChar (mark c : ascii) :
  isHtmlSpecial mark = true -> mark <> "&"%char -> occurs mark (escapeChar c) = false.
Proof.
  intros Hm Hamp. unfold escapeChar.
  assert (Hcases : mark = "<"%char \/ mark = ">"%char \/ mark = dquote \/ mark = "'"%char).
  { unfold isHtmlSpecial in Hm. rewrite !orb_true_iff, !Ascii.eqb_eq in Hm.
    destruct Hm as [[[[H | H] | H] | H] | H]; auto. now elim Hamp. }
  destruct (Ascii.eqb c "&") eqn:E1;
    [destruct Hcases as [-> | [-> | [-> | ->]]]; reflexivity |].
  destruct (Ascii.eqb c "<") eqn:E2;
    [destruct Hcases as [-> | [-> | [-> | ->]]]; reflexivity |].
  destruct (Ascii.eqb c ">") eqn:E3;
    [destruct Hcases as [-> | [-> | [-> | ->]]]; reflexivity |].
  destruct (Ascii.eqb c dquote) eqn:E4;
    [destruct Hcases as [-> | [-> | [-> | ->]]]; reflexivity |].
  destruct (Ascii.eqb c "'") eqn:E5;
    [destruct Hcases as [-> | [-> | [-> | ->]]]; reflexivity |].
  simpl. rewrite orb_false_r.
  destruct Hcases as [-> | [-> | [-> | ->]]]; assumption.
Qed.

(** X15. Escaped text carries no markup character: it contains no angle bracket
    and no quote of either kind, whatever the input; and escaping a
    concatenation is concatenating the escaped parts. *)
Theorem escapeHtml_output_has_no_markup (s t : string) :
  occurs "<" (escapeHtml s) = false /\
  occurs ">" (escapeHtml s) = false /\
  occurs dquote (escapeHtml s) = false /\
  occurs "'" (escapeHtml s) = false /\
  escapeHtml (String.append s t) = String.append (escapeHtml s) (escapeHtml t).
Proof.
  assert (H : forall mark, isHtmlSpecial mark = true -> mark <> "&"%char ->
                occurs mark (escapeHtml s) = false).
  { intros mark Hm Hamp. induction s as [| c s IH]; [reflexivity |].
    rewrite escapeHtml_cons, occurs_app, IH, orb_false_r.
    now apply occurs_escapeChar. }
  repeat split; try (apply H; [reflexivity | discriminate]).
  apply escapeHtml_app.
Qed.

Lemma unescapeHtml_escapeChar (c : ascii) (t : string) :
  unescapeHtml (String.append (escapeChar c) t) = String c (unescapeHtml t).
Proof.
  unfold escapeChar.
  destruct (Ascii.eqb c "&") eqn:E1; [apply Ascii.eqb_eq in E1; subst; reflexivity |].
  destruct (Ascii.eqb c "<") eqn:E2; [apply Ascii.eqb_eq in E2; subst; reflexivity |].
  destruct (Ascii.eqb c ">") eqn:E3; [apply Ascii.eqb_eq in E3; subst; reflexivity |].
  destruct (Ascii.eqb c dquote) eqn:E4; [apply Ascii.eqb_eq in E4; subst; reflexivity |].
  destruct (Ascii.eqb c "'") eqn:E5; [apply Ascii.eqb_eq in E5; subst; reflexivity |].
  clear E2 E3 E4 E5.
  destruct c as [b0 b1 b2 b3 b4 b5 b6 b7].
  destruct b0, b1, b2, b3, b4, b5, b6, b7; try reflexivity; discriminate E1.
Qed.

(** X16. Escaping loses nothing: reading the five entities back returns the text
    that was escaped, whatever it contains (entities already present in the
    input included). *)
Theorem escapeHtml_round_trip (s : string) :
  unescapeHtml (escapeHtml s) = s.
Proof.
  induction s as [| c s IH]; [reflexivity |].
  now rewrite escapeHtml_cons, unescapeHtml_escapeChar, IH.
Qed.

End Rendering.

Section Durations.

Import Render.

Lemma padStart_fixed (width bound : nat) :
  forallb (fun i => Nat.eqb (String.length (padStart width (toStr (Z.of_nat i)))) width)
    (seq 0 bound) = true ->
  forall n, (0 <= n < Z.of_nat bound)%Z ->
  String.length (padStart width (toStr n)) = width.
Proof.
  intros Hall n Hn. rewrite forallb_forall in Hall.
  specialize (Hall (Z.to_nat n)).
  rewrite Z2Nat.id in Hall by lia. apply Nat.eqb_eq, Hall, in_seq. lia.
Qed.

Lemma pad2_fixed (n : Z) :
  (0 <= n < 100)%Z -> String.length (padStart 2 (toStr n)) = 2%nat.
Proof. apply (padStart_fixed 2 100). vm_compute. reflexivity. Qed.

Lemma pad3_fixed (n : Z) :
  (0 <= n < 1000)%Z -> String.length (padStart 3 (toStr n)) = 3%nat.
Proof. apply (padStart_fixed 3 1000). vm_compute. reflexivity. Qed.

Lemma durationFields_bounds (ms : Z) :
  let '(minutes, seconds, millis) := durationFields ms in
  (0 <= minutes /\ 0 <= seconds < 60 /\ 0 <= millis < 1000 /\
   minutes * 60000 + seconds * 1000 + millis = Z.max 0 ms)%Z.
Proof.
  unfold durationFields. cbv zeta.
  assert (H0 : (0 <= Z.max 0 ms)%Z) by lia.
  set (c := Z.max 0 ms) in *.
  assert (H1 : (0 <= c / 1000)%Z) by (apply Z.div_pos; lia).
  rewrite !Z.rem_mod_nonneg by lia.
  pose proof (Z.mod_pos_bound (c / 1000) 60 ltac:(lia)).
  pose proof (Z.mod_pos_bound c 1000 ltac:(lia)).
  pose proof (Z.div_mod (c / 1000) 60 ltac:(lia)).
  pose proof (Z.div_mod c 1000 ltac:(lia)).
  assert (0 <= c / 1000 / 60)%Z by (apply Z.div_pos; lia).
  repeat split; lia.
Qed.

(** X17. The duration shown by the page: the three printed fields split the clamped
    duration exactly (seconds below 60, milliseconds below 1000, nothing lost),
    a negative duration prints as zero, and below 100 minutes the text has the
    fixed shape mm:ss.mmm of nine characters. *)
Theorem fmtDurationMs_fields_and_width (ms : Z) :
  (let '(minutes, seconds, millis) := durationFields ms in
   (0 <= minutes /\ 0 <= seconds < 60 /\ 0 <= millis < 1000 /\
    minutes * 60000 + seconds * 1000 + millis = Z.max 0 ms)%Z) /\
  ((ms <= 0)%Z -> fmtDurationMs ms = "00:00.000") /\
  ((ms < 6000000)%Z -> String.length (fmtDurationMs ms) = 9%nat).
Proof.
  split; [apply durationFields_bounds |]. split.
  - intros H. unfold fmtDurationMs, durationFields.
    replace (Z.max 0 ms) with 0%Z by lia. reflexivity.
  - intros H. pose proof (durationFields_bounds ms) as B.
    unfold fmtDurationMs. destruct (durationFields ms) as [[minutes seconds] millis].
    destruct B as (B1 & B2 & B3 & B4).
    unfold renderFields. rewrite !string_length_append.
    rewrite !pad2_fixed, pad3_fixed by lia. reflexivity.
Qed.

Lemma fmtDurationMs_fields_and_width_witness :
  fmtDurationMs (-250) = "00:00.000" /\ String.length (fmtDurationMs 83456) = 9%nat.
Proof.
  destruct (fmtDurationMs_fields_and_width (-250)) as (_ & Hneg & _).
  destruct (fmtDurationMs_fields_and_width 83456) as (_ & _ & Hlen).
  split; [apply Hneg; lia | apply Hlen; lia].
Defined.

(** X18. A clock time always prints as eight characters, HH:MM:SS with leading
    zeros. *)
Theorem fmtTimeHMS_has_eight_characters (date : ClockTime) :
  (0 <= getHours date < 24)%Z -> (0 <= getMinutes date < 60)%Z ->
  (0 <= getSeconds date < 60)%Z ->
  String.length (fmtTimeHMS date) = 8%nat.
Proof.
  intros Hh Hm Hs. unfold fmtTimeHMS. rewrite !string_length_append.
  rewrite !pad2_fixed by lia. reflexivity.
Qed.

Lemma fmtTimeHMS_has_eight_characters_witness :
  String.length (fmtTimeHMS (mkClockTime 7 5 9)) = 8%nat /\
  fmtTimeHMS (mkClockTime 7 5 9) = "07:05:09".
Proof.
  split; [apply fmtTimeHMS_has_eight_characters; simpl; lia | reflexivity].
Defined.

(** X20. The bot's [formatDuration] prints what the page's [fmtDurationMs] prints
    for every duration at or above zero; below zero the page prints zero while
    the bot's fields go negative. *)
Theorem bot_formatDuration_agrees_with_page (ms : Z) :
  ((0 <= ms)%Z -> Agents.formatDuration ms = fmtDurationMs ms) /\
  ((ms < 0)%Z ->
     fmtDurationMs ms = "00:00.000" /\
     let '(minutes, seconds, millis) := Agents.durationFields ms in
     (minutes < 0 /\ millis <= 0)%Z).
Proof.
  split.
  - intros H. unfold Agents.formatDuration, fmtDurationMs, Agents.durationFields,
      durationFields. now replace (Z.max 0 ms) with ms by lia.
  - intros H. split.
    + unfold fmtDurationMs, durationFields.
      replace (Z.max 0 ms) with 0%Z by lia. reflexivity.
    + unfold Agents.durationFields. cbv zeta. split.
      * assert (ms / 1000 < 0)%Z by (apply Z.div_lt_upper_bound; lia).
        apply Z.div_lt_upper_bound; lia.
      * pose proof (Z.rem_nonpos ms 1000). lia.
Qed.

Lemma bot_formatDuration_agrees_with_page_witness :
  Agents.formatDuration 83456 = "01:23.456" /\ fmtDurationMs (-1) = "00:00.000".
Proof.
  destruct (bot_formatDuration_agrees_with_page 83456) as (Hpos & _).
  destruct (bot_formatDuration_agrees_with_page (-1)) as (_ & Hneg).
  split; [rewrite Hpos by lia; reflexivity | apply Hneg; lia].
Defined.

(** X21. The uptime shown for an agent: below a minute the seconds as they are;
    below an hour whole minutes and the remaining seconds, which add up to the
    input; from an hour on whole hours and minutes, dropping less than a
    minute. Minute and second fields stay below 60. *)
Theorem formatUptime_fields (seconds : Z) :
  (0 <= seconds)%Z ->
  match Agents.uptimeFields seconds with
  | Agents.UpSeconds s => (s = seconds /\ seconds < 60)%Z
  | Agents.UpMinutes m s =>
      (1 <= m < 60 /\ 0 <= s < 60 /\ m * 60 + s = seconds)%Z
  | Agents.UpHours h m =>
      (1 <= h /\ 0 <= m < 60 /\
       h * 3600 + m * 60 <= seconds < h * 3600 + (m + 1) * 60)%Z
  end.
Proof.
  intros H. unfold Agents.uptimeFields.
  destruct (Z.ltb_spec seconds 60) as [L1 | L1]; [split; [reflexivity | lia] |].
  destruct (Z.ltb_spec seconds 3600) as [L2 | L2].
  - rewrite Z.rem_mod_nonneg by lia.
    pose proof (Z.mod_pos_bound seconds 60 ltac:(lia)).
    pose proof (Z.div_mod seconds 60 ltac:(lia)).
    assert (seconds / 60 < 60)%Z by (apply Z.div_lt_upper_bound; lia).
    assert (1 <= seconds / 60)%Z by (apply Z.div_le_lower_bound; lia).
    repeat split; lia.
  - cbv zeta. rewrite Z.rem_mod_nonneg by lia.
    pose proof (Z.mod_pos_bound seconds 3600 ltac:(lia)).
    pose proof (Z.div_mod seconds 3600 ltac:(lia)).
    pose proof (Z.mod_pos_bound (seconds mod 3600) 60 ltac:(lia)).
    pose proof (Z.div_mod (seconds mod 3600) 60 ltac:(lia)).
    assert (seconds mod 3600 / 60 < 60)%Z by (apply Z.div_lt_upper_bound; lia).
    assert (0 <= seconds mod 3600 / 60)%Z by (apply Z.div_pos; lia).
    assert (1 <= seconds / 3600)%Z by (apply Z.div_le_lower_bound; lia).
    repeat split; lia.
Qed.

Lemma formatUptime_fields_witness :
  match Agents.uptimeFields 3725 with
  | Agents.UpSeconds s => (s = 3725 /\ 3725 < 60)%Z
  | Agents.UpMinutes m s =>
      (1 <= m < 60 /\ 0 <= s < 60 /\ m * 60 + s = 3725)%Z
  | Agents.UpHours h m =>
      (1 <= h /\ 0 <= m < 60 /\
       h * 3600 + m * 60 <= 3725 < h * 3600 + (m + 1) * 60)%Z
  end.
Proof.
  apply (formatUptime_fields 3725). lia.
Defined.

End Durations.

(** ** The agent registry of the bot *)

Section AgentRegistry.

Import Agents.

Lemma mapGet_mapSet_same (k : string) (v : AgentInfo) (m : AgentMap) :
  mapGet k (mapSet k v m) = Some v.
Proof.
  induction m as [| [k0 v0] m IH]; simpl.
  - now rewrite String.eqb_refl.
  - destruct (String.eqb k0 k) eqn:E; simpl; rewrite E; [reflexivity | exact IH].
Qed.

Lemma mapGet_mapSet_other (k k' : string) (v : AgentInfo) (m : AgentMap) :
  k' <> k -> mapGet k' (mapSet k v m) = mapGet k' m.
Proof.
  intros Hne. induction m as [| [k0 v0] m IH]; simpl.
  - destruct (String.eqb_spec k k'); [now elim Hne | reflexivity].
  - destruct (String.eqb_spec k0 k) as [-> | Hk]; simpl.
    + destruct (String.eqb_spec k k'); [now elim Hne | reflexivity].
    + destruct (String.eqb k0 k'); [reflexivity | exact IH].
Qed.

Lemma mapGet_None_keys (k : string) (m : AgentMap) :
  mapGet k m = None <-> ~ In k (map fst m).
Proof.
  induction m as [| [k0 v0] m IH]; simpl.
  - split; auto.
  - destruct (String.eqb_spec k0 k) as [-> | Hk].
    + split; [discriminate | intros H; elim H; now left].
    + rewrite IH. split; [intros H [E | E]; [now elim Hk | now elim H] | auto].
Qed.

Lemma mapSet_absent (k : string) (v : AgentInfo) (m : AgentMap) :
  mapGet k m = None -> mapSet k v m = m ++ [(k, v)].
Proof.
  induction m as [| [k0 v0] m IH]; simpl; [reflexivity |].
  destruct (String.eqb k0 k); [discriminate |]. intros H. now rewrite IH.
Qed.

Lemma mapDelete_absent (k : string) (m : AgentMap) :
  mapGet k m = None -> mapDelete k m = m.
Proof.
  induction m as [| [k0 v0] m IH]; simpl; [reflexivity |].
  destruct (String.eqb k0 k); [discriminate |]. intros H. now rewrite IH.
Qed.

Lemma mapDelete_snoc (k : string) (v : AgentInfo) (m : AgentMap) :
  mapGet k m = None -> mapDelete k (m ++ [(k, v)]) = m.
Proof.
  induction m as [| [k0 v0] m IH]; simpl.
  - now rewrite String.eqb_refl.
  - destruct (String.eqb k0 k); [discriminate |]. intros H. now rewrite IH.
Qed.

Lemma mapGet_mapDelete_other (k k' : string) (m : AgentMap) :
  k' <> k -> mapGet k' (mapDelete k m) = mapGet k' m.
Proof.
  intros Hne. induction m as [| [k0 v0] m IH]; simpl; [reflexivity |].
  destruct (String.eqb_spec k0 k) as [-> | Hk]; simpl.
  - destruct (String.eqb_spec k k'); [now elim Hne | reflexivity].
  - destruct (String.eqb k0 k'); [reflexivity | exact IH].
Qed.

Lemma mapDelete_keys_incl (k k' : string) (m : AgentMap) :
  In k' (map fst (mapDelete k m)) -> In k' (map fst m).
Proof.
  induction m as [| [k0 v0] m IH]; simpl; [auto |].
  destruct (String.eqb k0 k); simpl; [auto |]. intros [E | E]; auto.
Qed.

Lemma mapDelete_wellKeyed (k : string) (m : AgentMap) :
  WellKeyed m -> WellKeyed (mapDelete k m) /\ mapGet k (mapDelete k m) = None.
Proof.
  intros (Hnd & Hk). induction m as [| [k0 v0] m IH]; simpl.
  - split; [split; constructor | reflexivity].
  - inversion Hnd as [| ? ? Hnotin Hnd']; subst. inversion Hk as [| ? ? Hk0 Hk']; subst.
    destruct (IH Hnd' Hk') as ((I1 & I2) & I3).
    destruct (String.eqb_spec k0 k) as [-> | Hne].
    + split; [split; assumption |]. now apply mapGet_None_keys.
    + split.
      * split; [| constructor; assumption].
        simpl. constructor; [| exact I1].
        intros Hin. apply Hnotin. eapply mapDelete_keys_incl. exact Hin.
      * simpl. destruct (String.eqb_spec k0 k); [now elim Hne | exact I3].
Qed.

Lemma mapSet_wellKeyed (k : string) (v : AgentInfo) (m : AgentMap) :
  userId v = k -> WellKeyed m -> WellKeyed (mapSet k v m).
Proof.
  intros Hv (Hnd & Hk). induction m as [| [k0 v0] m IH]; simpl.
  - split; [repeat constructor; auto | repeat constructor; exact Hv].
  - inversion Hnd as [| ? ? Hnotin Hnd']; subst. inversion Hk as [| ? ? Hk0 Hk']; subst.
    destruct (String.eqb_spec k0 (userId v)) as [E | Hne].
    + split; [exact Hnd | constructor; [simpl; now rewrite E | exact Hk']].
    + destruct (IH Hnd' Hk') as (I1 & I2).
      split; [| constructor; assumption].
      simpl. constructor; [| exact I1].
      intros Hin. apply mapGet_None_keys in Hnotin.
      assert (Hg : mapGet k0 (mapSet (userId v) v m) = None)
        by (rewrite mapGet_mapSet_other; assumption).
      apply mapGet_None_keys in Hg. now apply Hg.
Qed.

Lemma handle_wellKeyed (i : Interaction) (m : AgentMap) :
  WellKeyed m -> WellKeyed (handle i m).
Proof.
  intros H. destruct i as [now user name | user | user]; simpl.
  - unfold agentConnect, registerAgent. destruct (mapHas user m); [exact H |].
    simpl. now apply mapSet_wellKeyed.
  - unfold agentDisconnect, unregisterAgent. destruct (mapGet user m); [| exact H].
    simpl. now apply mapDelete_wellKeyed.
  - unfold unregisterAgent. destruct (mapGet user m); [| exact H].
    simpl. now apply mapDelete_wellKeyed.
Qed.

Lemma run_wellKeyed (trace : list Interaction) (m : AgentMap) :
  WellKeyed m -> WellKeyed (run trace m).
Proof.
  revert m. induction trace as [| i rest IH]; intros m H; [exact H |].
  simpl. apply IH. now apply handle_wellKeyed.
Qed.

(** X22. Whatever sequence of connect and disconnect commands and member removals
    reaches the registry, it holds at most one entry per user and every entry
    is stored under the [userId] it carries. *)
Theorem registry_keeps_one_entry_per_user (trace : list Interaction) (m : AgentMap) :
  WellKeyed m -> WellKeyed (run trace m).
Proof.
  revert m. induction trace as [| i rest IH]; intros m H.
  - exact H.
  - change (run (i :: rest) m) with (run rest (handle i m)).
    apply IH. destruct i as [now user name | user | user]; simpl.
    + unfold agentConnect, registerAgent. destruct (mapHas user m); [exact H |].
      simpl. now apply mapSet_wellKeyed.
    + unfold agentDisconnect, unregisterAgent. destruct (mapGet user m); [| exact H].
      simpl. now apply mapDelete_wellKeyed.
    + unfold unregisterAgent. destruct (mapGet user m); [| exact H].
      simpl. now apply mapDelete_wellKeyed.
Qed.

Lemma registry_keeps_one_entry_per_user_witness :
  WellKeyed (run [AgentConnect 10 "u1" "ann"; AgentConnect 20 "u2" "bob";
                  AgentConnect 30 "u1" "ann"; MemberRemove "u2"] []).
Proof.
  apply registry_keeps_one_entry_per_user. split; constructor.
Defined.

(** X23. A second connect by the same user is refused and leaves the registry,
    with the first connection instant, as it is; for a user who was not
    registered, connect followed by disconnect restores the registry
    exactly. *)
Theorem connect_is_idempotent_and_undone_by_disconnect
    (now now' : Z) (user name name' : string) (m : AgentMap) :
  let m1 := fst (agentConnect now user name m) in
  agentConnect now' user name' m1 = (m1, ReplyAlreadyConnected) /\
  (mapHas user m = false ->
     mapGet user m1 = Some (mkAgentInfo user name now "active") /\
     agentDisconnect user m1 = (m, ReplyDisconnected)).
Proof.
  intros m1. subst m1. unfold agentConnect, registerAgent.
  destruct (mapHas user m) eqn:Hh; simpl.
  - split; [now rewrite Hh | discriminate].
  - assert (Hg : mapGet user m = None).
    { unfold mapHas in Hh. destruct (mapGet user m); [discriminate | reflexivity]. }
    split.
    + unfold mapHas. now rewrite mapGet_mapSet_same.
    + intros _. split; [apply mapGet_mapSet_same |].
      unfold agentDisconnect, unregisterAgent. rewrite mapGet_mapSet_same.
      rewrite mapSet_absent by exact Hg. now rewrite mapDelete_snoc.
Qed.

Lemma connect_is_idempotent_and_undone_by_disconnect_witness :
  let m := fst (agentConnect 10 "u1" "ann" []) in
  agentDisconnect "u2" (fst (agentConnect 20 "u2" "bob" m)) = (m, ReplyDisconnected).
Proof.
  intros m.
  destruct (connect_is_idempotent_and_undone_by_disconnect 20 20 "u2" "bob" "bob" m)
    as (_ & H).
  apply H. reflexivity.
Defined.

Lemma filter_absent_user (user : string) (m : AgentMap) :
  ~ In user (map fst m) -> Forall (fun entry => userId (snd entry) = fst entry) m ->
  map snd m = filter (fun a => negb (String.eqb (userId a) user)) (map snd m).
Proof.
  induction m as [| [k1 v1] m IH]; simpl; intros Hn Hk; [reflexivity |].
  inversion Hk as [| ? ? Hk1 Hk']; subst. simpl in Hk1. rewrite Hk1.
  destruct (String.eqb_spec k1 user) as [-> | Hne]; [elim Hn; now left |].
  simpl. f_equal. apply IH; [intros H; apply Hn; now right | exact Hk'].
Qed.

Lemma mapDelete_listing (user : string) (m : AgentMap) :
  WellKeyed m ->
  getConnectedAgents (mapDelete user m)
  = filter (fun a => negb (String.eqb (userId a) user)) (getConnectedAgents m).
Proof.
  unfold getConnectedAgents. intros (Hnd & Hk).
  induction m as [| [k0 v0] m IH]; simpl; [reflexivity |].
  inversion Hnd as [| ? ? Hnotin Hnd']; subst. inversion Hk as [| ? ? Hk0 Hk']; subst.
  simpl in Hk0. rewrite Hk0.
  destruct (String.eqb_spec k0 user) as [-> | Hne]; simpl.
  - now apply filter_absent_user.
  - f_equal. apply IH; assumption.
Qed.

(** X24. Disconnecting a user, by command or because the member left, removes that
    user's entry and nothing else: every other user's entry is as before and
    the listing keeps its order; for a user who is not registered the
    registry is returned unchanged with the reply "not connected". *)
Theorem disconnect_removes_only_that_user (user : string) (m : AgentMap) :
  WellKeyed m ->
  let m' := fst (agentDisconnect user m) in
  handle (MemberRemove user) m = m' /\
  mapGet user m' = None /\
  (forall other, other <> user -> mapGet other m' = mapGet other m) /\
  getConnectedAgents m'
    = filter (fun a => negb (String.eqb (userId a) user)) (getConnectedAgents m) /\
  (mapHas user m = false -> agentDisconnect user m = (m, ReplyNotConnected)).
Proof.
  intros Hw m'.
  assert (E : m' = mapDelete user m).
  { subst m'. unfold agentDisconnect, unregisterAgent.
    destruct (mapGet user m) eqn:Hg; simpl; [reflexivity |].
    now rewrite mapDelete_absent. }
  split; [| split; [| split; [| split]]].
  - rewrite E. simpl. unfold unregisterAgent.
    destruct (mapGet user m) eqn:Hg; simpl; [reflexivity |].
    now rewrite mapDelete_absent.
  - rewrite E. now apply mapDelete_wellKeyed.
  - intros other Hne. rewrite E. now apply mapGet_mapDelete_other.
  - rewrite E. now apply mapDelete_listing.
  - intros Hh. unfold agentDisconnect, unregisterAgent. unfold mapHas in Hh.
    destruct (mapGet user m); [discriminate | reflexivity].
Qed.

Lemma disconnect_removes_only_that_user_witness :
  let m := run [AgentConnect 10 "u1" "ann"; AgentConnect 20 "u2" "bob";
                AgentConnect 30 "u3" "cy"] [] in
  map username (getConnectedAgents (fst (agentDisconnect "u2" m))) = ["ann"; "cy"].
Proof.
  intros m.
  destruct (disconnect_removes_only_that_user "u2" m) as (_ & _ & _ & H & _).
  - apply run_wellKeyed. split; constructor.
  - rewrite H. reflexivity.
Defined.

End AgentRegistry.

(** ** Bot commands, control panel and the history round trip *)

Section BotCommands.

Import Bot.

Lemma execute_voice_settings (env : Env) (cmd : Command) (f : File) :
  let st := current f in
  let st' := current (fst (execute env cmd f)) in
  voiceEnabled st' = voiceEnabled st /\ voiceMode st' = voiceMode st /\
  keyword st' = keyword st.
Proof.
  unfold current, getTimerState.
  destruct cmd; cbn [execute];
    unfold timerStart, timerStop, timerReset, timerStatus, getTimerState,
      updateTimerState, saveTimerState;
    try destruct (status (loadTimerState f)); cbn [fst];
    try destruct (writeThrows env); cbn; repeat split; reflexivity.
Qed.

(** X25. No command of the bot changes the voice settings kept in the record:
    after any sequence of commands [voiceEnabled], [voiceMode] and [keyword]
    are what they were. *)
Theorem bot_commands_keep_voice_settings (trace : list (Env * Command)) (f : File) :
  voiceEnabled (current (run trace f)) = voiceEnabled (current f) /\
  voiceMode (current (run trace f)) = voiceMode (current f) /\
  keyword (current (run trace f)) = keyword (current f).
Proof.
  revert f. induction trace as [| [env cmd] rest IH]; intros f; [repeat split |].
  simpl. destruct (IH (fst (execute env cmd f))) as (A1 & A2 & A3).
  destruct (execute_voice_settings env cmd f) as (B1 & B2 & B3).
  repeat split; congruence.
Qed.

(** X26. Start followed by stop, both written, records that run: status stopped,
    the start instant of the start command kept, the end instant of the stop
    command, their clamped difference as [durationMs] and the reason
    [manual]; the reply carries the same duration. *)
Theorem bot_start_then_stop_records_the_run (env1 env2 : Env) (f : File) :
  status (current f) <> running ->
  writeThrows env1 = false -> writeThrows env2 = false ->
  let f1 := fst (timerStart env1 f) in
  let st := current (fst (timerStop env2 f1)) in
  status st = stopped /\
  startedAt st = Some (now env1) /\
  endedAt st = Some (now env2) /\
  durationMs st = Some (Z.max 0 (now env2 - now env1)) /\
  stopReason st = Some manual /\
  snd (timerStop env2 f1) = ReplyStopped (Z.max 0 (now env2 - now env1)) (now env2).
Proof.
  intros Hs H1 H2 f1 st. subst st f1.
  unfold current, getTimerState in *.
  unfold timerStart, timerStop, getTimerState, updateTimerState, saveTimerState.
  rewrite H1.
  destruct (status (loadTimerState f)) eqn:E; try (now elim Hs);
    cbn; rewrite H2; cbn; repeat split; reflexivity.
Qed.

Lemma bot_start_then_stop_records_the_run_witness :
  let f1 := fst (timerStart (mkEnv 1000 false) FileAbsent) in
  durationMs (current (fst (timerStop (mkEnv 4500 false) f1))) = Some 3500%Z.
Proof.
  intros f1.
  assert (Hs : status (current FileAbsent) <> running) by discriminate.
  destruct (bot_start_then_stop_records_the_run (mkEnv 1000 false) (mkEnv 4500 false)
              FileAbsent Hs eq_refl eq_refl) as (_ & _ & _ & H & _).
  exact H.
Defined.

(** X27. When the state file cannot be written, every command leaves it as it was,
    and a start still answers "started": the failure is swallowed and later
    reads see the old record. *)
Theorem refused_write_leaves_record (env : Env) (cmd : Command) (f : File) :
  writeThrows env = true ->
  fst (execute env cmd f) = f /\
  (status (current f) <> running ->
     snd (timerStart env f) = ReplyStarted (now env)).
Proof.
  intros Hw. split.
  - destruct cmd; cbn [execute];
      unfold timerStart, timerStop, timerReset, timerStatus, getTimerState,
        updateTimerState, saveTimerState;
      rewrite ?Hw; try destruct (status (loadTimerState f)); reflexivity.
  - intros Hs. unfold timerStart, current, getTimerState in *.
    destruct (status (loadTimerState f)); try reflexivity. now elim Hs.
Qed.

Lemma refused_write_leaves_record_witness :
  timerStart (mkEnv 1000 true) FileAbsent = (FileAbsent, ReplyStarted 1000).
Proof.
  destruct (refused_write_leaves_record (mkEnv 1000 true) TimerStart FileAbsent eq_refl)
    as (H1 & H2).
  apply injective_projections; [exact H1 | apply H2; discriminate].
Defined.

End BotCommands.

Section ControlPanel.

Import Bot Panel.






(** X29. On a record the bot wrote, with the file writable, each panel button is
    disabled exactly when its command would leave the record as it is: Start
    while running, Stop while not running, Reset while idle. *)
Theorem disabled_panel_buttons_are_the_noop_ones (env : Env) (f : File) :
  Coherent (current f) -> writeThrows env = false ->
  let b := buildControlPanel f in
  (startDisabled b = true <-> current (fst (timerStart env f)) = current f) /\
  (stopDisabled b = true <-> current (fst (timerStop env f)) = current f) /\
  (resetDisabled b = true <-> current (fst (timerReset env f)) = current f).
Proof.
  intros Hc Hw b. subst b.
  unfold buildControlPanel, timerStart, timerStop, timerReset, current, getTimerState,
    updateTimerState, saveTimerState in *.
  rewrite Hw. unfold Coherent in Hc.
  destruct (loadTimerState f) as [st sa ea du sr ve vm kw] eqn:E. cbn in *.
  destruct st; try contradiction; cbn; rewrite ?E; cbn.
  - destruct Hc as (-> & -> & -> & ->).
    repeat split; try discriminate; try reflexivity;
      intros H; try reflexivity; discriminate H.
  - repeat split; try discriminate; try reflexivity;
      intros H; try reflexivity; discriminate H.
  - repeat split; try discriminate; try reflexivity;
      intros H; try reflexivity; discriminate H.
Qed.

Lemma disabled_panel_buttons_are_the_noop_ones_witness :
  let b := buildControlPanel FileAbsent in
  resetDisabled b = true /\
  current (fst (timerReset (mkEnv 1000 false) FileAbsent)) = current FileAbsent.
Proof.
  intros b.
  destruct (disabled_panel_buttons_are_the_noop_ones (mkEnv 1000 false) FileAbsent)
    as (_ & _ & H).
  - unfold Coherent. cbn. repeat split.
  - reflexivity.
  - split; [reflexivity | apply H; reflexivity].
Defined.

End ControlPanel.

Section HistoryRoundTrip.

Import History.

(** X19. What [saveHistory] writes is what [loadHistory] reads back: the first ten
    sessions, in order, so a history within the bound comes back unchanged;
    when the write is refused the stored history stays as it was. *)
Theorem saveHistory_loadHistory_round_trip (sessions : list Json) (ls : LocalStorage) :
  (usable ls ->
     loadHistory (saveHistory sessions ls) = firstn HISTORY_LIMIT sessions /\
     ((List.length sessions <= HISTORY_LIMIT)%nat ->
        loadHistory (saveHistory sessions ls) = sessions)) /\
  (setItemThrows ls = true -> saveHistory sessions ls = ls).
Proof.
  split.
  - intros (Hg & Hs).
    assert (E : loadHistory (saveHistory sessions ls) = firstn HISTORY_LIMIT sessions).
    { rewrite loadHistory_cases. unfold saveHistory, setItem, tryCatch.
      rewrite Hs. cbn. now rewrite Hg. }
    split; [exact E |]. intros Hl. rewrite E. now apply firstn_all2.
  - intros Hs. unfold saveHistory, setItem, tryCatch. now rewrite Hs.
Qed.

Lemma saveHistory_loadHistory_round_trip_witness :
  loadHistory (saveHistory [JNum 1; JNum 2] emptyStorage) = [JNum 1; JNum 2].
Proof.
  destruct (saveHistory_loadHistory_round_trip [JNum 1; JNum 2] emptyStorage) as (H & _).
  destruct H as (_ & H); [split; reflexivity |].
  apply H. simpl. unfold HISTORY_LIMIT. lia.
Defined.

End HistoryRoundTrip.
